(** * Visionboard: canvas engine and REST backend, embedded and checked

    Source files: [src/js/app.js] (class [VisionboardApp]) and
    [src/backend/server.js] (express handlers over SQLite).

    Number model.  JavaScript numbers are modelled as rationals ([Q]);
    [Math.max]/[Math.min] are [Qmax]/[Qmin].  The viewport code is read in
    exact arithmetic: rounding, infinities and NaN are outside that part of
    the model, and every statement about computed coordinates is a
    statement in exact arithmetic.  The size of an inserted image is read
    in double precision: each quotient and product of [addImageItem] is
    rounded to the nearest double ([Binary64.round64]).  Division by zero
    is [Infinity] in JavaScript and [0] in [Q]: a statement below either
    does not depend on the value of a quotient or assumes its divisor
    positive.
    Timestamps ([Date.now()]) are integers ([Z]); a handler reads the
    clock once.  DOM rendering (render, updateViewport, updateMinimap,
    updateZoomDisplay) and the debounced viewport write do not feed back
    into the state and are left out. *)

From Stdlib Require Import ZArith QArith Qminmax Qabs Qpower Qround Lqa Lia
  Ascii String.
From stdpp Require Import base gmap list sorting strings.

(** ** Shared data: JSON values, items and todos as both sides exchange them *)

(** A JSON value ([style] bags, the [completed] flag). *)
#[warnings="-register-all"] Inductive Json :=
  | JNull
  | JBool (b : bool)
  | JNum (q : Q)
  | JStr (s : string)
  | JArr (elems : list Json)
  | JObj (fields : list (string * Json)).

(** JavaScript truthiness of a value that may be absent ([undefined]). *)
Definition truthy (v : option Json) : bool :=
  match v with
  | None | Some JNull => false
  | Some (JBool b) => b
  | Some (JNum q) => negb (Qeq_bool q 0)
  | Some (JStr s) => negb (bool_decide (s = EmptyString))
  | Some (JArr _) | Some (JObj _) => true
  end.

(** An item as a JavaScript object: the client's working copy, the body of
    a request and the element of a response.  [None] is an absent field. *)
Record Item := mkItem {
  item_id : string;
  item_board_id : option string;
  item_type : string;
  item_x : Q;
  item_y : Q;
  item_width : option Q;
  item_height : option Q;
  item_content : option string;
  item_style : option Json;
  item_z_index : option Z;
  item_created_at : option Z;
  item_updated_at : option Z
}.

Record Todo := mkTodo {
  todo_id : string;
  todo_board_id : option string;
  todo_text : string;
  todo_completed : option Json;
  todo_priority : option string;
  todo_created_at : option Z;
  todo_updated_at : option Z
}.

(** ** Client: viewport, gestures and navigation loops ([app.js]) *)

Module Canvas.
Local Open Scope Q_scope.

(** What the handlers read from the DOM: [this.viewport.getBoundingClientRect()],
    [window.innerWidth]/[innerHeight], [this.minimap.getBoundingClientRect()]. *)
Record Env := mkEnv {
  rect_left : Q; rect_top : Q; rect_width : Q; rect_height : Q;
  innerWidth : Q; innerHeight : Q;
  minimap_left : Q; minimap_top : Q; minimap_width : Q; minimap_height : Q
}.

(** A callback handed to [requestAnimationFrame] and not yet run. *)
Inductive Callback := NavigationLoop | JoystickNavigationLoop.

(** The fields of [this] that the viewport code reads and writes
    (constructor, lines 90-117 and 306-313), and the browser's queue of
    animation-frame callbacks. *)
Record App := mkApp {
  viewport_x : Q; viewport_y : Q; zoom : Q;
  isPanning : bool; panStart : Q * Q;
  pinchStart : option Q; pinchZoomStart : Q;
  keysPressed : gset string; isNavigating : bool; isShiftPressed : bool;
  joystickActive : bool; currentX : Q; currentY : Q;
  joystickNavigating : bool;
  frameQueue : list Callback
}.

Definition canvasSize : Q := 5000.
Definition minZoom : Q := 0.25.
Definition maxZoom : Q := 2.
Definition navigationSpeed : Q := 8.
Definition navigationSpeedFast : Q := 25.

Definition set_origin (x y : Q) (s : App) : App :=
  {| viewport_x := x; viewport_y := y; zoom := zoom s;
     isPanning := isPanning s; panStart := panStart s;
     pinchStart := pinchStart s; pinchZoomStart := pinchZoomStart s;
     keysPressed := keysPressed s; isNavigating := isNavigating s;
     isShiftPressed := isShiftPressed s; joystickActive := joystickActive s;
     currentX := currentX s; currentY := currentY s;
     joystickNavigating := joystickNavigating s;
     frameQueue := frameQueue s |}.

Definition set_zoom (z : Q) (s : App) : App :=
  {| viewport_x := viewport_x s; viewport_y := viewport_y s; zoom := z;
     isPanning := isPanning s; panStart := panStart s;
     pinchStart := pinchStart s; pinchZoomStart := pinchZoomStart s;
     keysPressed := keysPressed s; isNavigating := isNavigating s;
     isShiftPressed := isShiftPressed s; joystickActive := joystickActive s;
     currentX := currentX s; currentY := currentY s;
     joystickNavigating := joystickNavigating s;
     frameQueue := frameQueue s |}.

Definition set_pan (p : bool) (start : Q * Q) (s : App) : App :=
  {| viewport_x := viewport_x s; viewport_y := viewport_y s; zoom := zoom s;
     isPanning := p; panStart := start; pinchStart := pinchStart s;
     pinchZoomStart := pinchZoomStart s; keysPressed := keysPressed s;
     isNavigating := isNavigating s; isShiftPressed := isShiftPressed s;
     joystickActive := joystickActive s; currentX := currentX s;
     currentY := currentY s; joystickNavigating := joystickNavigating s;
     frameQueue := frameQueue s |}.

Definition set_pinch (d : option Q) (z0 : Q) (s : App) : App :=
  {| viewport_x := viewport_x s; viewport_y := viewport_y s; zoom := zoom s;
     isPanning := isPanning s; panStart := panStart s; pinchStart := d;
     pinchZoomStart := z0; keysPressed := keysPressed s;
     isNavigating := isNavigating s; isShiftPressed := isShiftPressed s;
     joystickActive := joystickActive s; currentX := currentX s;
     currentY := currentY s; joystickNavigating := joystickNavigating s;
     frameQueue := frameQueue s |}.

Definition set_keysPressed (k : gset string) (s : App) : App :=
  {| viewport_x := viewport_x s; viewport_y := viewport_y s; zoom := zoom s;
     isPanning := isPanning s; panStart := panStart s;
     pinchStart := pinchStart s; pinchZoomStart := pinchZoomStart s;
     keysPressed := k; isNavigating := isNavigating s;
     isShiftPressed := isShiftPressed s; joystickActive := joystickActive s;
     currentX := currentX s; currentY := currentY s;
     joystickNavigating := joystickNavigating s;
     frameQueue := frameQueue s |}.

Definition set_isNavigating (b : bool) (s : App) : App :=
  {| viewport_x := viewport_x s; viewport_y := viewport_y s; zoom := zoom s;
     isPanning := isPanning s; panStart := panStart s;
     pinchStart := pinchStart s; pinchZoomStart := pinchZoomStart s;
     keysPressed := keysPressed s; isNavigating := b;
     isShiftPressed := isShiftPressed s; joystickActive := joystickActive s;
     currentX := currentX s; currentY := currentY s;
     joystickNavigating := joystickNavigating s;
     frameQueue := frameQueue s |}.

Definition set_isShiftPressed (b : bool) (s : App) : App :=
  {| viewport_x := viewport_x s; viewport_y := viewport_y s; zoom := zoom s;
     isPanning := isPanning s; panStart := panStart s;
     pinchStart := pinchStart s; pinchZoomStart := pinchZoomStart s;
     keysPressed := keysPressed s; isNavigating := isNavigating s;
     isShiftPressed := b; joystickActive := joystickActive s;
     currentX := currentX s; currentY := currentY s;
     joystickNavigating := joystickNavigating s;
     frameQueue := frameQueue s |}.

Definition set_joystick (a : bool) (x y : Q) (s : App) : App :=
  {| viewport_x := viewport_x s; viewport_y := viewport_y s; zoom := zoom s;
     isPanning := isPanning s; panStart := panStart s;
     pinchStart := pinchStart s; pinchZoomStart := pinchZoomStart s;
     keysPressed := keysPressed s; isNavigating := isNavigating s;
     isShiftPressed := isShiftPressed s; joystickActive := a; currentX := x;
     currentY := y; joystickNavigating := joystickNavigating s;
     frameQueue := frameQueue s |}.

Definition set_joystickNavigating (b : bool) (s : App) : App :=
  {| viewport_x := viewport_x s; viewport_y := viewport_y s; zoom := zoom s;
     isPanning := isPanning s; panStart := panStart s;
     pinchStart := pinchStart s; pinchZoomStart := pinchZoomStart s;
     keysPressed := keysPressed s; isNavigating := isNavigating s;
     isShiftPressed := isShiftPressed s; joystickActive := joystickActive s;
     currentX := currentX s; currentY := currentY s; joystickNavigating := b;
     frameQueue := frameQueue s |}.

Definition set_frameQueue (q : list Callback) (s : App) : App :=
  {| viewport_x := viewport_x s; viewport_y := viewport_y s; zoom := zoom s;
     isPanning := isPanning s; panStart := panStart s;
     pinchStart := pinchStart s; pinchZoomStart := pinchZoomStart s;
     keysPressed := keysPressed s; isNavigating := isNavigating s;
     isShiftPressed := isShiftPressed s; joystickActive := joystickActive s;
     currentX := currentX s; currentY := currentY s;
     joystickNavigating := joystickNavigating s; frameQueue := q |}.

(** [requestAnimationFrame(cb)]: the callback runs in the next frame. *)
Definition requestAnimationFrame (cb : Callback) (s : App) : App :=
  set_frameQueue (frameQueue s ++ [cb]) s.

(** The canvas point under a client pixel, as every handler computes it
    (onCanvasClick, lines 934-936; onDrop, startDragItem, ...). *)
Definition canvasPointAt (env : Env) (s : App) (clientX clientY : Q) : Q * Q :=
  (viewport_x s + (clientX - rect_left env) / zoom s,
   viewport_y s + (clientY - rect_top env) / zoom s).

(** clampViewport, lines 677-684. *)
Definition clampViewport (env : Env) (s : App) : App :=
  let maxX := canvasSize - rect_width env / zoom s in
  let maxY := canvasSize - rect_height env / zoom s in
  set_origin (Qmax 0 (Qmin maxX (viewport_x s)))
             (Qmax 0 (Qmin maxY (viewport_y s))) s.

(** startPan / doPan / endPan, lines 575-596. *)
Definition startPan (x y : Q) (s : App) : App := set_pan true (x, y) s.

Definition doPan (env : Env) (x y : Q) (s : App) : App :=
  let dx := x - fst (panStart s) in
  let dy := y - snd (panStart s) in
  let s1 := set_origin (viewport_x s - dx / zoom s)
                       (viewport_y s - dy / zoom s) s in
  clampViewport env (set_pan (isPanning s1) (x, y) s1).

Definition endPan (s : App) : App := set_pan false (panStart s) s.

(** The zoom the wheel handler settles on (lines 609-610). *)
Definition wheelZoom (deltaY : Q) (s : App) : Q :=
  let delta := if negb (Qle_bool deltaY 0) then 0.9 else 1.1 in
  Qmax minZoom (Qmin maxZoom (zoom s * delta)).

(** onWheel, lines 598-625. *)
Definition onWheel (env : Env) (clientX clientY deltaY : Q) (s : App) : App :=
  let mouseX := clientX - rect_left env in
  let mouseY := clientY - rect_top env in
  let canvasX := viewport_x s + mouseX / zoom s in
  let canvasY := viewport_y s + mouseY / zoom s in
  let newZoom := wheelZoom deltaY s in
  if negb (Qeq_bool newZoom (zoom s)) then
    let s1 := set_zoom newZoom s in
    let s2 := set_origin (canvasX - mouseX / zoom s1)
                         (canvasY - mouseY / zoom s1) s1 in
    clampViewport env s2
  else s.

(** zoomIn / zoomOut, lines 627-665. *)
Definition zoomIn (env : Env) (s : App) : App :=
  let centerX := rect_width env / 2 in
  let centerY := rect_height env / 2 in
  let canvasX := viewport_x s + centerX / zoom s in
  let canvasY := viewport_y s + centerY / zoom s in
  let s1 := set_zoom (Qmin maxZoom (zoom s * 1.2)) s in
  let s2 := set_origin (canvasX - centerX / zoom s1)
                       (canvasY - centerY / zoom s1) s1 in
  clampViewport env s2.

Definition zoomOut (env : Env) (s : App) : App :=
  let centerX := rect_width env / 2 in
  let centerY := rect_height env / 2 in
  let canvasX := viewport_x s + centerX / zoom s in
  let canvasY := viewport_y s + centerY / zoom s in
  let s1 := set_zoom (Qmax minZoom (zoom s / 1.2)) s in
  let s2 := set_origin (canvasX - centerX / zoom s1)
                       (canvasY - centerY / zoom s1) s1 in
  clampViewport env s2.

(** resetView, lines 667-675: no clamp. *)
Definition resetView (env : Env) (s : App) : App :=
  set_zoom 1
    (set_origin (canvasSize / 2 - innerWidth env / 2)
                (canvasSize / 2 - (innerHeight env - 50) / 2) s).

(** onMinimapClick, lines 712-731. *)
Definition onMinimapClick (env : Env) (clientX clientY : Q) (s : App) : App :=
  let x := clientX - minimap_left env in
  let y := clientY - minimap_top env in
  let scaleX := canvasSize / minimap_width env in
  let scaleY := canvasSize / minimap_height env in
  let vpHalfWidth := (rect_width env / zoom s) / 2 in
  let vpHalfHeight := (rect_height env / zoom s) / 2 in
  clampViewport env
    (set_origin (x * scaleX - vpHalfWidth) (y * scaleY - vpHalfHeight) s).

(** A touch event: the client positions of [e.touches], whether the target
    lies inside a canvas item, and the value [getPinchDistance(e)] returns
    for it (the Euclidean distance of the first two touches, lines 771-775;
    the square root is taken as given). *)
Record TouchEvent := mkTouch {
  touches : list (Q * Q);
  onItem : bool;
  pinchDistance : Q
}.

Definition truthyQ (d : option Q) : bool :=
  match d with Some q => negb (Qeq_bool q 0) | None => false end.

(** onTouchStart / onTouchMove / onTouchEnd, lines 737-769. *)
Definition onTouchStart (e : TouchEvent) (s : App) : App :=
  match touches e with
  | [t] => if negb (onItem e) then startPan (fst t) (snd t) s else s
  | [_; _] => set_pinch (Some (pinchDistance e)) (zoom s) s
  | _ => s
  end.

Definition onTouchMove (env : Env) (e : TouchEvent) (s : App) : App :=
  match touches e with
  | [t] => if isPanning s then doPan env (fst t) (snd t) s else s
  | [_; _] =>
      if truthyQ (pinchStart s) then
        let pinchCurrent := pinchDistance e in
        let scale := pinchCurrent / default 0 (pinchStart s) in
        set_zoom (Qmax minZoom (Qmin maxZoom (pinchZoomStart s * scale))) s
      else s
  | _ => s
  end.

Definition onTouchEnd (e : TouchEvent) (s : App) : App :=
  match touches e with
  | [] => set_pinch None (pinchZoomStart s) (endPan s)
  | _ => s
  end.

(** [this.keysPressed.has(k)]. *)
Definition has (k : string) (s : App) : bool := bool_decide (k ∈ keysPressed s).

(** stopNavigation, lines 885-889.  The call [this.saveViewportPosition()]
    that follows the assignment names a method the class does not define;
    it raises after the flag is cleared and changes no state. *)
Definition stopNavigation (s : App) : App := set_isNavigating false s.

(** navigationLoop, lines 891-923. *)
Definition navigationLoop (env : Env) (s : App) : App :=
  if negb (isNavigating s) || bool_decide (keysPressed s = ∅) then
    set_isNavigating false s
  else
    let speed := if isShiftPressed s then navigationSpeedFast
                 else navigationSpeed in
    let s1 := if has "up" s
              then set_origin (viewport_x s) (Qmax 0 (viewport_y s - speed)) s
              else s in
    let s2 := if has "down" s1
              then set_origin (viewport_x s1)
                     (Qmin (canvasSize - innerHeight env / zoom s1)
                           (viewport_y s1 + speed)) s1
              else s1 in
    let s3 := if has "left" s2
              then set_origin (Qmax 0 (viewport_x s2 - speed)) (viewport_y s2) s2
              else s2 in
    let s4 := if has "right" s3
              then set_origin
                     (Qmin (canvasSize - innerWidth env / zoom s3)
                           (viewport_x s3 + speed)) (viewport_y s3) s3
              else s3 in
    requestAnimationFrame NavigationLoop s4.

(** startNavigation, lines 879-883. *)
Definition startNavigation (env : Env) (s : App) : App :=
  if isNavigating s then s
  else navigationLoop env (set_isNavigating true s).

(** onKeyDown for a WASD or arrow key outside an input field (lines
    781-809): the Shift tracking and the navigation branch; [navKey] is
    [normalizeNavKey(e.key)], one of "up", "down", "left", "right". *)
Definition onKeyDown (env : Env) (navKey : string) (shiftKey : bool) (s : App)
    : App :=
  let s0 := if shiftKey then set_isShiftPressed true s else s in
  if negb (has navKey s0)
  then startNavigation env (set_keysPressed ({[navKey]} ∪ keysPressed s0) s0)
  else s0.

(** onKeyUp (lines 847-867) for the Shift key, and for a WASD or arrow key. *)
Definition onShiftUp (s : App) : App := set_isShiftPressed false s.

Definition onKeyUp (navKey : string) (s : App) : App :=
  let s1 := set_keysPressed (keysPressed s ∖ {[navKey]}) s in
  if bool_decide (keysPressed s1 = ∅) then stopNavigation s1 else s1.

(** Joystick, lines 326-469.  updateJoystickPosition stores the clamped,
    normalised stick offset; the model takes that pair as its input. *)
Definition Qabs_gt (q bound : Q) : bool := negb (Qle_bool (Qabs q) bound).

Definition joystickNavigationLoop (env : Env) (s : App) : App :=
  if negb (joystickNavigating s) then s
  else
    let speed := 12 in
    let dx := currentX s in
    let dy := currentY s in
    let s1 := if Qabs_gt dx 0.1 || Qabs_gt dy 0.1
              then clampViewport env
                     (set_origin (viewport_x s + dx * speed)
                                 (viewport_y s + dy * speed) s)
              else s in
    requestAnimationFrame JoystickNavigationLoop s1.

Definition startJoystickNavigation (env : Env) (s : App) : App :=
  if joystickNavigating s then s
  else joystickNavigationLoop env (set_joystickNavigating true s).

Definition stopJoystickNavigation (s : App) : App :=
  set_joystickNavigating false s.

Definition onJoystickStart (env : Env) (s : App) : App :=
  startJoystickNavigation env (set_joystick true (currentX s) (currentY s) s).

Definition updateJoystickPosition (nx ny : Q) (s : App) : App :=
  set_joystick (joystickActive s) nx ny s.

Definition resetJoystick (s : App) : App :=
  stopJoystickNavigation (set_joystick false 0 0 s).

(** One display frame: the browser runs the callbacks that were queued
    before the frame; what they queue in turn waits for the next frame. *)
Definition runCallback (env : Env) (s : App) (cb : Callback) : App :=
  match cb with
  | NavigationLoop => navigationLoop env s
  | JoystickNavigationLoop => joystickNavigationLoop env s
  end.

Definition animationFrame (env : Env) (s : App) : App :=
  fold_left (runCallback env) (frameQueue s) (set_frameQueue [] s).

(** Number of queued instances of one loop. *)
Definition isCallback (cb cb' : Callback) : bool :=
  match cb, cb' with
  | NavigationLoop, NavigationLoop => true
  | JoystickNavigationLoop, JoystickNavigationLoop => true
  | _, _ => false
  end.

Definition instances (cb : Callback) (s : App) : nat :=
  length (filter (fun c => isCallback cb c = true) (frameQueue s)).

(** The user-visible viewport operations, and a run of them. *)
Inductive ViewOp :=
  | OpPanStart (x y : Q)
  | OpPanMove (x y : Q)
  | OpPanEnd
  | OpWheel (clientX clientY deltaY : Q)
  | OpZoomIn
  | OpZoomOut
  | OpResetView
  | OpMinimapClick (clientX clientY : Q)
  | OpTouchStart (e : TouchEvent)
  | OpTouchMove (e : TouchEvent)
  | OpTouchEnd (e : TouchEvent)
  | OpKeyDown (navKey : string) (shiftKey : bool)
  | OpKeyUp (navKey : string)
  | OpShiftUp
  | OpJoystickStart
  | OpJoystickMove (nx ny : Q)
  | OpJoystickEnd
  | OpFrame.

Definition step (env : Env) (s : App) (op : ViewOp) : App :=
  match op with
  | OpPanStart x y => startPan x y s
  | OpPanMove x y => if isPanning s then doPan env x y s else s
  | OpPanEnd => if isPanning s then endPan s else s
  | OpWheel cx cy dy => onWheel env cx cy dy s
  | OpZoomIn => zoomIn env s
  | OpZoomOut => zoomOut env s
  | OpResetView => resetView env s
  | OpMinimapClick cx cy => onMinimapClick env cx cy s
  | OpTouchStart e => onTouchStart e s
  | OpTouchMove e => onTouchMove env e s
  | OpTouchEnd e => onTouchEnd e s
  | OpKeyDown k shift => onKeyDown env k shift s
  | OpKeyUp k => onKeyUp k s
  | OpShiftUp => onShiftUp s
  | OpJoystickStart => onJoystickStart env s
  | OpJoystickMove nx ny =>
      if joystickActive s then updateJoystickPosition nx ny s else s
  | OpJoystickEnd => if joystickActive s then resetJoystick s else s
  | OpFrame => animationFrame env s
  end.

Definition run (env : Env) (ops : list ViewOp) (s : App) : App :=
  fold_left (step env) ops s.

(** The bound of the viewport origin: within [0, canvasSize - extent/zoom]
    on each axis, and at 0 where that interval is empty. *)
Definition axisInBounds (extent z o : Q) : Prop :=
  let maxO := canvasSize - extent / z in
  if Qlt_le_dec maxO 0 then o == 0 else 0 <= o /\ o <= maxO.

Definition originInBounds (env : Env) (s : App) : Prop :=
  axisInBounds (rect_width env) (zoom s) (viewport_x s) /\
  axisInBounds (rect_height env) (zoom s) (viewport_y s).

(** The operations whose handler ends in clampViewport or leaves the view
    alone: all but resetView, a two-finger move and a navigation key press. *)
Definition clampedOp (op : ViewOp) : bool :=
  match op with
  | OpResetView | OpKeyDown _ _ => false
  | OpTouchMove e => match touches e with [_; _] => false | _ => true end
  | _ => true
  end.

(** Origin in bounds and no navigation key held. *)
Definition settled (env : Env) (s : App) : Prop :=
  originInBounds env s /\ keysPressed s = ∅.

(** The zoom factor lies between [minZoom] and [maxZoom]. *)
Definition zoomInRange (s : App) : Prop :=
  minZoom <= zoom s /\ zoom s <= maxZoom.




(** A window of the given inner size whose viewport element is [w] x [h]
    at the page origin, with a 200x200 minimap. *)
Definition windowEnv (innerW innerH w h : Q) : Env :=
  {| rect_left := 0; rect_top := 0; rect_width := w; rect_height := h;
     innerWidth := innerW; innerHeight := innerH;
     minimap_left := 0; minimap_top := 0;
     minimap_width := 200; minimap_height := 200 |}.

(** A small desktop window, a full-HD one and one wider than the canvas. *)
Definition desktopEnv : Env := windowEnv 1000 850 1000 800.
Definition hdEnv : Env := windowEnv 1920 1080 1920 1030.
Definition wideEnv : Env := windowEnv 5120 1440 5120 1390.

(** An idle application state with the given origin and zoom. *)
Definition idleApp (x y z : Q) : App :=
  {| viewport_x := x; viewport_y := y; zoom := z;
     isPanning := false; panStart := (0, 0);
     pinchStart := None; pinchZoomStart := 1;
     keysPressed := ∅; isNavigating := false; isShiftPressed := false;
     joystickActive := false; currentX := 0; currentY := 0;
     joystickNavigating := false;
     frameQueue := [] |}.

(** Two fingers: the first lands, the second lands 200 px away, both move
    until they are 100 px apart, then both lift. *)
Definition pinchOut : list ViewOp :=
  [ OpTouchStart (mkTouch [(100, 100)] false 0);
    OpTouchStart (mkTouch [(100, 100); (300, 100)] false 200);
    OpTouchMove (mkTouch [(150, 100); (250, 100)] false 100);
    OpTouchEnd (mkTouch [(150, 100)] false 0);
    OpTouchEnd (mkTouch [] false 0) ].

(** Rolling from one navigation key to the next between two frames. *)
Definition rollKeys : list ViewOp :=
  [OpKeyDown "up" false; OpKeyUp "up"; OpKeyDown "right" false].

(** Componentwise numerical equality of points. *)
Definition samePoint (p q : Q * Q) : Prop :=
  fst p == fst q /\ snd p == snd q.

End Canvas.

(** ** Numbers: double-precision rounding

    Where a statement depends on how a quotient or a product is rounded,
    the arithmetic of JavaScript numbers (IEEE 754 binary64, round to
    nearest, ties to even) is written out on rationals.  The exponent range
    is not modelled: [round64 x] is the double nearest to [x] as long as
    that double is normal, that is for magnitudes from 2^-1022 up to the
    largest double. *)

Module Binary64.
Local Open Scope Q_scope.

(** The nearest integer, the even one of two equally near. *)
Definition roundHalfEven (q : Q) : Z :=
  let f := Qfloor q in
  match Qcompare (q - inject_Z f) (1 # 2) with
  | Lt => f
  | Gt => (f + 1)%Z
  | Eq => if Z.even f then f else (f + 1)%Z
  end.

(** For [a > 0], the exponent of the last of its 53 significant bits:
    2^52 <= a / 2^e < 2^53. *)
Definition exponent (a : Q) : Z :=
  let e0 := (Z.log2 (Qnum a) - Z.log2 (Zpos (Qden a)) - 53)%Z in
  if Qle_bool (2 ^ 53) (a / 2 ^ e0) then (e0 + 1)%Z else e0.

(** The double nearest to [x]: a 53-bit integer times a power of two. *)
Definition round64 (x : Q) : Q :=
  if Qeq_bool x 0 then 0
  else
    let a := Qabs x in
    let e := exponent a in
    let r := inject_Z (roundHalfEven (a / 2 ^ e)) * 2 ^ e in
    if Qle_bool 0 x then r else - r.

(** [a * b] and [a / b] on doubles. *)
Definition mul64 (a b : Q) : Q := round64 (a * b).
Definition div64 (a b : Q) : Q := round64 (a / b).


End Binary64.

(** ** Client: item list, text editor, images ([app.js]) *)

Module Items.
Import Binary64.
Local Open Scope Q_scope.

(** A [fetch] issued by the *API methods (lines 1532-1568). *)
Inductive ApiCall :=
  | PostItem (body : Item)
  | PutItem (id : string) (body : Item)
  | DeleteItem (id : string).

(** The fields of [this] the item code reads and writes, the two DOM facts
    it depends on (the value of [#textInput], whether [#textEditorModal]
    is shown) and the requests issued so far, oldest first. *)
Record State := mkState {
  items : list Item;
  selectedItem : option string;
  editingItemId : option string;
  pendingTextPosition : option (Q * Q);
  pendingImagePosition : option (Q * Q);
  textEditorState : Json;
  textInput : string;
  textEditorShown : bool;
  resizingItem : option string;
  resizeStart : Q * Q * (Q * Q);
  zoom : Q;
  requests : list ApiCall
}.

Definition boardId : string := "default".
Definition canvasSize : Q := 5000.
Definition maxSize : Q := 400.

Definition set_items (l : list Item) (s : State) : State :=
  {| items := l; selectedItem := selectedItem s;
     editingItemId := editingItemId s;
     pendingTextPosition := pendingTextPosition s;
     pendingImagePosition := pendingImagePosition s;
     textEditorState := textEditorState s; textInput := textInput s;
     textEditorShown := textEditorShown s; resizingItem := resizingItem s;
     resizeStart := resizeStart s; zoom := zoom s; requests := requests s |}.

Definition set_selectedItem (sel : option string) (s : State) : State :=
  {| items := items s; selectedItem := sel; editingItemId := editingItemId s;
     pendingTextPosition := pendingTextPosition s;
     pendingImagePosition := pendingImagePosition s;
     textEditorState := textEditorState s; textInput := textInput s;
     textEditorShown := textEditorShown s; resizingItem := resizingItem s;
     resizeStart := resizeStart s; zoom := zoom s; requests := requests s |}.

Definition set_editor (editing : option string) (pos : option (Q * Q))
    (st : Json) (input : string) (shown : bool)
    (s : State) : State :=
  {| items := items s; selectedItem := selectedItem s;
     editingItemId := editing; pendingTextPosition := pos;
     pendingImagePosition := pendingImagePosition s; textEditorState := st;
     textInput := input; textEditorShown := shown;
     resizingItem := resizingItem s; resizeStart := resizeStart s;
     zoom := zoom s; requests := requests s |}.

Definition set_pendingImagePosition (pos : option (Q * Q))
    (s : State) : State :=
  {| items := items s; selectedItem := selectedItem s;
     editingItemId := editingItemId s;
     pendingTextPosition := pendingTextPosition s;
     pendingImagePosition := pos; textEditorState := textEditorState s;
     textInput := textInput s; textEditorShown := textEditorShown s;
     resizingItem := resizingItem s; resizeStart := resizeStart s;
     zoom := zoom s; requests := requests s |}.

Definition set_resize (r : option string) (start : Q * Q * (Q * Q))
    (s : State) : State :=
  {| items := items s; selectedItem := selectedItem s;
     editingItemId := editingItemId s;
     pendingTextPosition := pendingTextPosition s;
     pendingImagePosition := pendingImagePosition s;
     textEditorState := textEditorState s; textInput := textInput s;
     textEditorShown := textEditorShown s; resizingItem := r;
     resizeStart := start; zoom := zoom s; requests := requests s |}.

Definition set_requests (r : list ApiCall) (s : State) : State :=
  {| items := items s; selectedItem := selectedItem s;
     editingItemId := editingItemId s;
     pendingTextPosition := pendingTextPosition s;
     pendingImagePosition := pendingImagePosition s;
     textEditorState := textEditorState s; textInput := textInput s;
     textEditorShown := textEditorShown s; resizingItem := resizingItem s;
     resizeStart := resizeStart s; zoom := zoom s; requests := r |}.

Definition set_content_style (c : string) (st : Json) (i : Item) : Item :=
  {| item_id := item_id i; item_board_id := item_board_id i;
     item_type := item_type i; item_x := item_x i; item_y := item_y i;
     item_width := item_width i; item_height := item_height i;
     item_content := Some c; item_style := Some st;
     item_z_index := item_z_index i; item_created_at := item_created_at i;
     item_updated_at := item_updated_at i |}.

Definition set_size (w h : Q) (i : Item) : Item :=
  {| item_id := item_id i; item_board_id := item_board_id i;
     item_type := item_type i; item_x := item_x i; item_y := item_y i;
     item_width := Some w; item_height := Some h;
     item_content := item_content i; item_style := item_style i;
     item_z_index := item_z_index i; item_created_at := item_created_at i;
     item_updated_at := item_updated_at i |}.

Definition set_board_id (b : string) (i : Item) : Item :=
  {| item_id := item_id i; item_board_id := Some b; item_type := item_type i;
     item_x := item_x i; item_y := item_y i; item_width := item_width i;
     item_height := item_height i; item_content := item_content i;
     item_style := item_style i; item_z_index := item_z_index i;
     item_created_at := item_created_at i;
     item_updated_at := item_updated_at i |}.

(** createItemAPI / updateItemAPI / deleteItemAPI: the request as it is
    serialised at the call (the copy written to local storage is left
    out). *)
Definition createItemAPI (item : Item) (s : State) : State :=
  set_requests (requests s ++ [PostItem (set_board_id boardId item)]) s.

Definition updateItemAPI (item : Item) (s : State) : State :=
  set_requests (requests s ++ [PutItem (item_id item) item]) s.

Definition deleteItemAPI (id : string) (s : State) : State :=
  set_requests (requests s ++ [DeleteItem id]) s.

(** [String.prototype.trim] on a string of Latin-1 characters: tab, line
    feed, vertical tab, form feed, carriage return, space, no-break space. *)
Definition isWhiteSpace (c : ascii) : bool :=
  let n := Ascii.N_of_ascii c in
  ((9 <=? n) && (n <=? 13))%N || (n =? 32)%N || (n =? 160)%N.

Fixpoint trimStart (t : string) : string :=
  match t with
  | String c rest => if isWhiteSpace c then trimStart rest else t
  | EmptyString => EmptyString
  end.

Definition trim (t : string) : string :=
  String.rev (trimStart (String.rev (trimStart t))).

(** [a || b] on a coordinate that may be absent: 0 is falsy. *)
Definition orElse (a : option Q) (b : Q) : Q :=
  match a with
  | Some q => if Qeq_bool q 0 then b else q
  | None => b
  end.

(** A truthy id: present and not the empty string. *)
Definition truthyId (id : option string) : option string :=
  match id with
  | Some i => if bool_decide (i = EmptyString) then None else Some i
  | None => None
  end.

(** The default of the text editor (lines 120-126, 1003). *)
Definition defaultTextStyle : Json :=
  JObj [("fontSize", JNum 24); ("color", JStr "#ffffff");
        ("bold", JBool false); ("italic", JBool false);
        ("glow", JBool false)].

(** openTextEditor / editTextItem / closeTextEditor, lines 991-1037. *)
Definition openTextEditor (x y : Q) (s : State) : State :=
  set_editor None (Some (x, y)) defaultTextStyle EmptyString true s.

Definition editTextItem (item : Item) (s : State) : State :=
  set_editor (Some (item_id item)) (pendingTextPosition s)
    (default (JObj []) (item_style item))
    (default EmptyString (item_content item)) true s.

Definition closeTextEditor (s : State) : State :=
  set_editor None None (textEditorState s) (textInput s) false s.

(** The first element satisfying [p] is replaced: [find] returns the first
    match and the assignments mutate that object in place. *)
Fixpoint updateFirst (p : Item -> bool) (f : Item -> Item) (l : list Item)
    : list Item :=
  match l with
  | [] => []
  | i :: rest => if p i then f i :: rest else i :: updateFirst p f rest
  end.

Definition hasId (id : string) (i : Item) : bool := bool_decide (item_id i = id).

(** saveTextItem, lines 1039-1071; [newId] is what [generateId()] returns. *)
Definition saveTextItem (newId : string) (s : State) : State :=
  let text := trim (textInput s) in
  if bool_decide (text = EmptyString) then closeTextEditor s
  else
    let s1 :=
      match truthyId (editingItemId s) with
      | Some editing =>
          match List.find (hasId editing) (items s) with
          | Some item =>
              let item' := set_content_style text (textEditorState s) item in
              updateItemAPI item'
                (set_items
                   (updateFirst (hasId editing)
                      (set_content_style text (textEditorState s)) (items s)) s)
          | None => s
          end
      | None =>
          let item :=
            {| item_id := newId;
               item_board_id := None;
               item_type := "text";
               item_x := orElse (fst <$> pendingTextPosition s) (canvasSize / 2);
               item_y := orElse (snd <$> pendingTextPosition s) (canvasSize / 2);
               item_width := None;
               item_height := None;
               item_content := Some text;
               item_style := Some (textEditorState s);
               item_z_index := Some (Z.of_nat (length (items s)));
               item_created_at := None;
               item_updated_at := None |} in
          createItemAPI item (set_items (items s ++ [item]) s)
      end in
    closeTextEditor s1.

(** The size computed in [img.onload], lines 1103-1111, in double
    precision: [maxSize / width] and [width *= ratio] are each rounded.
    [imgWidth] and [imgHeight] are [img.width] and [img.height], the
    natural size of the image in pixels. *)
Definition normalizedSize (imgWidth imgHeight : Q) : Q * Q :=
  if negb (Qle_bool imgWidth maxSize) || negb (Qle_bool imgHeight maxSize)
  then
    let ratio := Qmin (div64 maxSize imgWidth) (div64 maxSize imgHeight) in
    (mul64 imgWidth ratio, mul64 imgHeight ratio)
  else (imgWidth, imgHeight).

(** addImageItem, lines 1099-1131, at the moment the image has loaded with
    natural size [imgWidth] x [imgHeight]. *)
Definition addImageItem (newId dataUrl : string) (x y : option Q)
    (imgWidth imgHeight : Q) (s : State) : State :=
  let size := normalizedSize imgWidth imgHeight in
  let item :=
    {| item_id := newId;
       item_board_id := None;
       item_type := "image";
       item_x := orElse x (orElse (fst <$> pendingImagePosition s)
                                  (canvasSize / 2));
       item_y := orElse y (orElse (snd <$> pendingImagePosition s)
                                  (canvasSize / 2));
       item_width := Some (fst size);
       item_height := Some (snd size);
       item_content := Some dataUrl;
       item_style := Some (JObj []);
       item_z_index := Some (Z.of_nat (length (items s)));
       item_created_at := None;
       item_updated_at := None |} in
  set_pendingImagePosition None
    (createItemAPI item (set_items (items s ++ [item]) s)).

(** selectItem / deselectAll, lines 1204-1212. *)
Definition selectItem (id : string) (s : State) : State :=
  set_selectedItem (Some id) s.

Definition deselectAll (s : State) : State := set_selectedItem None s.

(** startResize / doResize / endResize, lines 1249-1277.  The handle
    exists on image items only, which carry a width and a height; the
    item being resized is referred to by its id. *)
Definition startResize (clientX clientY : Q) (item : Item) (s : State) : State :=
  set_resize (Some (item_id item))
    (clientX, clientY,
     (default 0 (item_width item), default 0 (item_height item))) s.

Definition doResize (clientX clientY : Q) (s : State) : State :=
  match resizingItem s with
  | None => s
  | Some id =>
      let '(startX, startY, (startW, startH)) := resizeStart s in
      let dx := (clientX - startX) / zoom s in
      let dy := (clientY - startY) / zoom s in
      set_items
        (updateFirst (hasId id)
           (set_size (Qmax 50 (startW + dx)) (Qmax 50 (startH + dy)))
           (items s)) s
  end.

Definition endResize (s : State) : State :=
  match resizingItem s with
  | None => s
  | Some id =>
      let s1 := match List.find (hasId id) (items s) with
                | Some item => updateItemAPI item s
                | None => s
                end in
      set_resize None (resizeStart s1) s1
  end.

(** deleteItem, lines 1279-1287: [findIndex] and [splice(index, 1)]. *)
Definition deleteItem (id : string) (s : State) : State :=
  match list_find (fun i => item_id i = id) (items s) with
  | Some (index, _) =>
      set_selectedItem None
        (deleteItemAPI id (set_items (delete index (items s)) s))
  | None => s
  end.


(** Sample data: a text note and an image on the board, the note selected. *)
Definition noteItem : Item :=
  {| item_id := "1700000000000_goal"; item_board_id := None;
     item_type := "text"; item_x := 100; item_y := 100;
     item_width := None; item_height := None;
     item_content := Some "Goal"%string;
     item_style := Some defaultTextStyle;
     item_z_index := Some 0%Z;
     item_created_at := None; item_updated_at := None |}.

Definition photoItem : Item :=
  {| item_id := "1700000000500_photo"; item_board_id := None;
     item_type := "image"; item_x := 300; item_y := 200;
     item_width := Some 400; item_height := Some 300;
     item_content := Some "data:image/png;base64,AAAA"%string;
     item_style := Some (JObj []);
     item_z_index := Some 1%Z;
     item_created_at := None; item_updated_at := None |}.

Definition sampleState : State :=
  {| items := [noteItem; photoItem];
     selectedItem := Some "1700000000000_goal"%string;
     editingItemId := None;
     pendingTextPosition := None;
     pendingImagePosition := None;
     textEditorState := defaultTextStyle;
     textInput := EmptyString;
     textEditorShown := false;
     resizingItem := None;
     resizeStart := (0, 0, (0, 0));
     zoom := 1;
     requests := [] |}.

(** The editor open on the note, its text replaced by blanks. *)
Definition blankEdit : State :=
  set_editor (Some "1700000000000_goal") None defaultTextStyle
    (String " " (String "009" (String "010" (String " " EmptyString))))
    true sampleState.

End Items.

(** ** Backend: sessions and the REST handlers ([server.js]) *)

Module Server.
Local Open Scope Z_scope.

(** *** Sessions *)

(** Where a request can carry its token: [req.headers['x-auth-token']]
    and [req.query.token]. *)
Record Request := mkRequest {
  header_token : option string;
  query_token : option string
}.

(** What the middleware does with a request: answer it, or call [next()]. *)
Inductive AuthOutcome :=
  | Rejected (status : Z) (needsAuth : bool)
  | Next.

Definition sessionLifetime : Z := 24 * 60 * 60 * 1000.

(** [a || b] on strings that may be absent: the empty string is falsy. *)
Definition orToken (a b : option string) : option string :=
  match a with
  | Some t => if bool_decide (t = EmptyString) then b else Some t
  | None => b
  end.

(** requireAuth, lines 26-34.  [sessions] is the process-wide
    [Map] from token to expiry time. *)
Definition requireAuth (now : Z) (req : Request) (sessions : gmap string Z)
    : AuthOutcome * gmap string Z :=
  match orToken (header_token req) (query_token req) with
  | Some token =>
      if bool_decide (token = EmptyString)
         || negb (bool_decide (is_Some (sessions !! token)))
      then (Rejected 401 true, sessions)
      else (Next, <[token := now + sessionLifetime]> sessions)
  | None => (Rejected 401 true, sessions)
  end.

(** The hourly sweep, lines 37-42. *)
Definition cleanExpiredSessions (now : Z) (sessions : gmap string Z)
    : gmap string Z :=
  filter (fun kv => ¬ (snd kv < now)) sessions.

(** Login (lines 113-122) with the generated token given, and logout. *)
Definition login (now : Z) (token : string) (sessions : gmap string Z)
    : gmap string Z :=
  <[token := now + sessionLifetime]> sessions.

Definition logout (req : Request) (sessions : gmap string Z) : gmap string Z :=
  match header_token req with
  | Some t => if bool_decide (t = EmptyString) then sessions else delete t sessions
  | None => sessions
  end.

(** *** The store

    One list of rows per table, in insertion order.  The [style] column
    holds the JSON text of a value; a row carries that value, so that
    [JSON.parse] of what [JSON.stringify] wrote is the value itself.
    The key, [type] and the columns declared NOT NULL are never absent;
    [width], [height] and [content] may be NULL. *)
Record BoardRow := mkBoardRow {
  board_id : string;
  board_name : string;
  board_viewport_x : Q;
  board_viewport_y : Q;
  board_zoom : Q;
  board_created_at : Z;
  board_updated_at : Z
}.

Record ItemRow := mkItemRow {
  row_id : string;
  row_board_id : string;
  row_type : string;
  row_x : Q;
  row_y : Q;
  row_width : option Q;
  row_height : option Q;
  row_content : option string;
  row_style : Json;
  row_z_index : Z;
  row_created_at : Z;
  row_updated_at : Z
}.

Record TodoRow := mkTodoRow {
  trow_id : string;
  trow_board_id : string;
  trow_text : string;
  trow_completed : Z;
  trow_priority : string;
  trow_created_at : Z;
  trow_updated_at : Z
}.

Record Db := mkDb {
  boards : list BoardRow;
  items : list ItemRow;
  todos : list TodoRow
}.

(** What a handler sends back. *)
Record BoardInfo := mkBoardInfo {
  info_id : string;
  info_name : string;
  info_viewport : Q * Q;
  info_zoom : Q
}.

Inductive Response :=
  | Success
  | Synced (synced_at : Z)
  | Board (board : BoardInfo) (items : list Item) (todos : list Todo)
  | Denied (status : Z) (needsAuth : bool)
  | Failure (status : Z).

Definition hasBoard (id : string) (db : Db) : bool :=
  existsb (fun b => bool_decide (board_id b = id)) (boards db).

(** INSERT INTO items: the statement fails when the primary key is taken
    or the board the row refers to does not exist (the schema's PRIMARY
    KEY and FOREIGN KEY clauses, lines 66-80). *)
Definition insertItem (r : ItemRow) (db : Db) : option Db :=
  if existsb (fun r' => bool_decide (row_id r' = row_id r)) (items db) then None
  else if negb (hasBoard (row_board_id r) db) then None
  else Some (mkDb (boards db) (items db ++ [r]) (todos db)).

Definition insertTodo (t : TodoRow) (db : Db) : option Db :=
  if existsb (fun t' => bool_decide (trow_id t' = trow_id t)) (todos db) then None
  else if negb (hasBoard (trow_board_id t) db) then None
  else Some (mkDb (boards db) (items db) (todos db ++ [t])).

(** DELETE FROM items / todos WHERE board_id = ?. *)
Definition deleteBoardItems (id : string) (db : Db) : Db :=
  mkDb (boards db)
       (List.filter (fun r => negb (bool_decide (row_board_id r = id))) (items db))
       (todos db).

Definition deleteBoardTodos (id : string) (db : Db) : Db :=
  mkDb (boards db) (items db)
       (List.filter (fun t => negb (bool_decide (trow_board_id t = id))) (todos db)).

(** UPDATE boards SET viewport_x, viewport_y, zoom, updated_at WHERE id = ?. *)
Definition updateViewport (now : Z) (id : string) (x y z : Q) (db : Db) : Db :=
  mkDb (map (fun b => if bool_decide (board_id b = id)
                      then {| board_id := board_id b;
                              board_name := board_name b;
                              board_viewport_x := x;
                              board_viewport_y := y;
                              board_zoom := z;
                              board_created_at := board_created_at b;
                              board_updated_at := now |}
                      else b) (boards db))
       (items db) (todos db).

(** The row one element of [items] in a sync body is bound to,
    lines 329-334. *)
Definition orNow (now : Z) (t : option Z) : Z :=
  match t with
  | Some v => if v =? 0 then now else v
  | None => now
  end.

Definition styleOrEmpty (st : option Json) : Json :=
  match st with
  | Some v => if truthy (Some v) then v else JObj []
  | None => JObj []
  end.

Definition syncItemRow (now : Z) (board : string) (item : Item) : ItemRow :=
  {| row_id := item_id item;
     row_board_id := board;
     row_type := item_type item;
     row_x := item_x item;
     row_y := item_y item;
     row_width := item_width item;
     row_height := item_height item;
     row_content := item_content item;
     row_style := styleOrEmpty (item_style item);
     row_z_index := default 0 (item_z_index item);
     row_created_at := orNow now (item_created_at item);
     row_updated_at := now |}.

(** The row one element of [todos] is bound to, lines 344-347. *)
Definition orMedium (p : option string) : string :=
  match p with
  | Some v => if bool_decide (v = EmptyString) then "medium"%string else v
  | None => "medium"%string
  end.

Definition syncTodoRow (now : Z) (board : string) (todo : Todo) : TodoRow :=
  {| trow_id := todo_id todo;
     trow_board_id := board;
     trow_text := todo_text todo;
     trow_completed := if truthy (todo_completed todo) then 1 else 0;
     trow_priority := orMedium (todo_priority todo);
     trow_created_at := orNow now (todo_created_at todo);
     trow_updated_at := now |}.

(** The two insertion loops of the transaction. *)
Fixpoint insertItems (now : Z) (board : string) (l : list Item) (db : Db)
    : option Db :=
  match l with
  | [] => Some db
  | item :: rest =>
      match insertItem (syncItemRow now board item) db with
      | Some db' => insertItems now board rest db'
      | None => None
      end
  end.

Fixpoint insertTodos (now : Z) (board : string) (l : list Todo) (db : Db)
    : option Db :=
  match l with
  | [] => Some db
  | todo :: rest =>
      match insertTodo (syncTodoRow now board todo) db with
      | Some db' => insertTodos now board rest db'
      | None => None
      end
  end.

(** The body of POST /api/sync. *)
Record SyncBody := mkSyncBody {
  sync_board_id : option string;
  sync_items : option (list Item);
  sync_todos : option (list Todo);
  sync_viewport : option (Q * Q * Q)
}.

(** POST /api/sync, lines 310-357.  The transaction either commits all of
    its statements or leaves the store as it was; [now] is [Date.now()]
    during the request. *)
Definition sync (now : Z) (body : SyncBody) (db : Db) : Response * Db :=
  let board := default "default"%string (sync_board_id body) in
  let db1 := match sync_viewport body with
             | Some (x, y, z) => updateViewport now board x y z db
             | None => db
             end in
  let transaction :=
    db3 ← insertItems now board (default [] (sync_items body))
            (deleteBoardItems board db1);
    insertTodos now board (default [] (sync_todos body))
      (deleteBoardTodos board db3) in
  match transaction with
  | Some db' => (Synced now, db')
  | None => (Failure 500, db)
  end.

(** ORDER BY z_index, and ORDER BY created_at DESC. *)
Definition byZIndex (a b : ItemRow) : Prop := row_z_index a <= row_z_index b.
Definition byCreatedDesc (a b : TodoRow) : Prop :=
  trow_created_at b <= trow_created_at a.

#[global] Instance byZIndex_dec : RelDecision byZIndex.
Proof. intros a b. unfold byZIndex. apply _. Defined.

#[global] Instance byCreatedDesc_dec : RelDecision byCreatedDesc.
Proof. intros a b. unfold byCreatedDesc. apply _. Defined.

(** A row as the element of a response (lines 161-164 and 174). *)
Definition itemOfRow (r : ItemRow) : Item :=
  {| item_id := row_id r;
     item_board_id := Some (row_board_id r);
     item_type := row_type r;
     item_x := row_x r;
     item_y := row_y r;
     item_width := row_width r;
     item_height := row_height r;
     item_content := row_content r;
     item_style := Some (row_style r);
     item_z_index := Some (row_z_index r);
     item_created_at := Some (row_created_at r);
     item_updated_at := Some (row_updated_at r) |}.

Definition todoOfRow (t : TodoRow) : Todo :=
  {| todo_id := trow_id t;
     todo_board_id := Some (trow_board_id t);
     todo_text := trow_text t;
     todo_completed := Some (JBool (negb (trow_completed t =? 0)));
     todo_priority := Some (trow_priority t);
     todo_created_at := Some (trow_created_at t);
     todo_updated_at := Some (trow_updated_at t) |}.

(** GET /api/board/:id, lines 146-180. *)
Definition getBoard (now : Z) (boardId : string) (db : Db) : Response * Db :=
  let db1 := if hasBoard boardId db then db
             else mkDb (boards db ++ [mkBoardRow boardId "Neues Board" 0 0 1 now now])
                       (items db) (todos db) in
  match List.find (fun b => bool_decide (board_id b = boardId)) (boards db1) with
  | Some board =>
      let rows := merge_sort byZIndex
                    (List.filter (fun r => bool_decide (row_board_id r = boardId))
                                 (items db1)) in
      let trows := merge_sort byCreatedDesc
                     (List.filter (fun t => bool_decide (trow_board_id t = boardId))
                                  (todos db1)) in
      (Board (mkBoardInfo (board_id board) (board_name board)
                (board_viewport_x board, board_viewport_y board)
                (board_zoom board))
             (map itemOfRow rows) (map todoOfRow trows), db1)
  | None => (Failure 500, db1)
  end.

(** The body of PUT /api/items/:id: a field is supplied with a value of
    its column's type, or absent ([undefined]). *)
Record ItemUpdate := mkItemUpdate {
  upd_x : option Q;
  upd_y : option Q;
  upd_width : option Q;
  upd_height : option Q;
  upd_content : option string;
  upd_style : option Json;
  upd_z_index : option Z
}.

(** The SET clause built in lines 223-232, applied to one row. *)
Definition applyUpdate (now : Z) (u : ItemUpdate) (r : ItemRow) : ItemRow :=
  {| row_id := row_id r;
     row_board_id := row_board_id r;
     row_type := row_type r;
     row_x := default (row_x r) (upd_x u);
     row_y := default (row_y r) (upd_y u);
     row_width := match upd_width u with Some w => Some w | None => row_width r end;
     row_height := match upd_height u with Some h => Some h | None => row_height r end;
     row_content := match upd_content u with
                    | Some c => Some c
                    | None => row_content r
                    end;
     row_style := default (row_style r) (upd_style u);
     row_z_index := default (row_z_index r) (upd_z_index u);
     row_created_at := row_created_at r;
     row_updated_at := now |}.

(** PUT /api/items/:id, lines 217-241. *)
Definition putItem (now : Z) (id : string) (u : ItemUpdate) (db : Db)
    : Response * Db :=
  (Success,
   mkDb (boards db)
        (map (fun r => if bool_decide (row_id r = id) then applyUpdate now u r
                       else r) (items db))
        (todos db)).

(** POST /api/items (lines 201-214) and DELETE /api/items/:id (244-251). *)
Definition postItem (now : Z) (item : Item) (db : Db) : Response * Db :=
  let r := {| row_id := item_id item;
              row_board_id := default "default"%string (item_board_id item);
              row_type := item_type item;
              row_x := item_x item;
              row_y := item_y item;
              row_width := item_width item;
              row_height := item_height item;
              row_content := item_content item;
              row_style := styleOrEmpty (item_style item);
              row_z_index := default 0 (item_z_index item);
              row_created_at := now;
              row_updated_at := now |} in
  match insertItem r db with
  | Some db' => (Success, db')
  | None => (Failure 500, db)
  end.

Definition deleteItem (id : string) (db : Db) : Response * Db :=
  (Success,
   mkDb (boards db)
        (List.filter (fun r => negb (bool_decide (row_id r = id))) (items db))
        (todos db)).

(** What GET returns for an item that was sent in a sync at time [now]:
    the fields the store keeps, the defaults it fills in, and the two
    fields it overwrites. *)
Definition itemEcho (board : string) (now : Z) (sent got : Item) : Prop :=
  item_id got = item_id sent /\
  item_type got = item_type sent /\
  item_x got = item_x sent /\
  item_y got = item_y sent /\
  item_width got = item_width sent /\
  item_height got = item_height sent /\
  item_content got = item_content sent /\
  item_style got = Some (styleOrEmpty (item_style sent)) /\
  item_z_index got = Some (default 0 (item_z_index sent)) /\
  item_created_at got = Some (orNow now (item_created_at sent)) /\
  item_updated_at got = Some now /\
  item_board_id got = Some board.

Definition todoEcho (board : string) (now : Z) (sent got : Todo) : Prop :=
  todo_id got = todo_id sent /\
  todo_text got = todo_text sent /\
  todo_completed got = Some (JBool (truthy (todo_completed sent))) /\
  todo_priority got = Some (orMedium (todo_priority sent)) /\
  todo_created_at got = Some (orNow now (todo_created_at sent)) /\
  todo_updated_at got = Some now /\
  todo_board_id got = Some board.

(** The order of the two lists of a response. *)
Definition zIndexOrder (a b : Item) : Prop :=
  default 0 (item_z_index a) <= default 0 (item_z_index b).

Definition newestFirst (a b : Todo) : Prop :=
  default 0 (todo_created_at b) <= default 0 (todo_created_at a).

(** The body [{x: v}]. *)
Definition onlyX (v : Q) : ItemUpdate :=
  mkItemUpdate (Some v) None None None None None None.

(** Sample data: the store right after start-up (lines 97-101), an item
    and a todo as an earlier GET returned them, a session that expired at
    time 1000 and a request presenting its token. *)
Definition freshDb : Db :=
  {| boards := [ {| board_id := "default"; board_name := "Mein Visionboard";
                    board_viewport_x := 0; board_viewport_y := 0;
                    board_zoom := 1;
                    board_created_at := 0; board_updated_at := 0 |} ];
     items := [];
     todos := [] |}.

Definition goalItem : Item :=
  {| item_id := "1700000000000_goal"; item_board_id := Some "default"%string;
     item_type := "text"; item_x := 100; item_y := 100;
     item_width := None; item_height := None;
     item_content := Some "Goal"%string;
     item_style := Some (JObj [("fontSize"%string, JNum 24)]);
     item_z_index := Some 0;
     item_created_at := Some 1000; item_updated_at := Some 1000 |}.

Definition goalTodo : Todo :=
  {| todo_id := "1700000000100_todo"; todo_board_id := Some "default"%string;
     todo_text := "Run";
     todo_completed := Some (JBool true);
     todo_priority := Some "high"%string;
     todo_created_at := Some 1000; todo_updated_at := Some 1000 |}.

(** Two notes, the upper one (z_index 1) first. *)
Definition upperNote : Item :=
  {| item_id := "a"; item_board_id := None;
     item_type := "text"; item_x := 1; item_y := 1;
     item_width := None; item_height := None;
     item_content := Some "A"%string; item_style := None;
     item_z_index := Some 1;
     item_created_at := None; item_updated_at := None |}.

Definition lowerNote : Item :=
  {| item_id := "b"; item_board_id := None;
     item_type := "text"; item_x := 5; item_y := 5;
     item_width := None; item_height := None;
     item_content := Some "B"%string; item_style := None;
     item_z_index := Some 0;
     item_created_at := None; item_updated_at := None |}.

Definition staleSessions : gmap string Z := {[ "t0k3n"%string := 1000 ]}.

Definition staleRequest : Request := mkRequest (Some "t0k3n"%string) None.

(** *** The other routes *)

(** POST /api/auth/login, lines 113-122.  [configured] is AUTH_PASSWORD,
    [fresh] what generateToken() returns, [password] the body's field. *)
Inductive LoginResponse :=
  | LoggedIn (token : string)
  | WrongPassword (status : Z).

Definition postLogin (configured : string) (now : Z) (fresh : string)
    (password : option string) (sessions : gmap string Z)
    : LoginResponse * gmap string Z :=
  if bool_decide (password = Some configured)
  then (LoggedIn fresh, login now fresh sessions)
  else (WrongPassword 401, sessions).

(** GET /api/auth/check, lines 125-132: the [authenticated] flag. *)
Definition authCheck (req : Request) (sessions : gmap string Z) : bool :=
  match orToken (header_token req) (query_token req) with
  | Some token =>
      negb (bool_decide (token = EmptyString))
      && bool_decide (is_Some (sessions !! token))
  | None => false
  end.

(** PUT /api/board/:id/viewport, lines 183-194. *)
Definition putViewport (now : Z) (id : string) (x y z : Q) (db : Db)
    : Response * Db :=
  (Success, updateViewport now id x y z db).

(** POST /api/todos, lines 258-271: [completed] takes the column's
    default 0. *)
Definition postTodo (now : Z) (todo : Todo) (db : Db) : Response * Db :=
  let t := {| trow_id := todo_id todo;
              trow_board_id := default "default"%string (todo_board_id todo);
              trow_text := todo_text todo;
              trow_completed := 0;
              trow_priority := default "medium"%string (todo_priority todo);
              trow_created_at := now;
              trow_updated_at := now |} in
  match insertTodo t db with
  | Some db' => (Success, db')
  | None => (Failure 500, db)
  end.

(** The body of PUT /api/todos/:id: a field is supplied or absent. *)
Record TodoUpdate := mkTodoUpdate {
  upd_text : option string;
  upd_completed : option Json;
  upd_priority : option string
}.

(** The SET clause built in lines 280-285, applied to one row. *)
Definition applyTodoUpdate (now : Z) (u : TodoUpdate) (t : TodoRow) : TodoRow :=
  {| trow_id := trow_id t;
     trow_board_id := trow_board_id t;
     trow_text := default (trow_text t) (upd_text u);
     trow_completed := match upd_completed u with
                       | Some v => if truthy (Some v) then 1 else 0
                       | None => trow_completed t
                       end;
     trow_priority := default (trow_priority t) (upd_priority u);
     trow_created_at := trow_created_at t;
     trow_updated_at := now |}.

(** PUT /api/todos/:id (lines 274-294) and DELETE /api/todos/:id (297-304). *)
Definition putTodo (now : Z) (id : string) (u : TodoUpdate) (db : Db)
    : Response * Db :=
  (Success,
   mkDb (boards db) (items db)
        (map (fun t => if bool_decide (trow_id t = id)
                       then applyTodoUpdate now u t else t) (todos db))).

Definition deleteTodo (id : string) (db : Db) : Response * Db :=
  (Success,
   mkDb (boards db) (items db)
        (List.filter (fun t => negb (bool_decide (trow_id t = id))) (todos db))).

(** The two lists of a board response (empty for any other answer). *)
Definition itemsOf (r : Response) : list Item :=
  match r with Board _ l _ => l | _ => [] end.

Definition todosOf (r : Response) : list Todo :=
  match r with Board _ _ l => l | _ => [] end.

(** What GET returns for an item created by POST /api/items at time
    [now]: as for a sync, except that both timestamps are the time of the
    request and an absent board is "default". *)
Definition itemPosted (now : Z) (sent got : Item) : Prop :=
  item_id got = item_id sent /\
  item_type got = item_type sent /\
  item_x got = item_x sent /\
  item_y got = item_y sent /\
  item_width got = item_width sent /\
  item_height got = item_height sent /\
  item_content got = item_content sent /\
  item_style got = Some (styleOrEmpty (item_style sent)) /\
  item_z_index got = Some (default 0 (item_z_index sent)) /\
  item_created_at got = Some now /\
  item_updated_at got = Some now /\
  item_board_id got = Some (default "default"%string (item_board_id sent)).

(** The store right after the first GET of a board it did not hold. *)
Definition withNewBoard (now : Z) (id : string) (db : Db) : Db :=
  {| boards := boards db ++
               [ {| board_id := id; board_name := "Neues Board";
                    board_viewport_x := 0; board_viewport_y := 0;
                    board_zoom := 1;
                    board_created_at := now; board_updated_at := now |} ];
     items := items db;
     todos := todos db |}.

(** The row POST /api/items binds, lines 203-209. *)
Definition postedRow (now : Z) (item : Item) : ItemRow :=
  {| row_id := item_id item;
     row_board_id := default "default"%string (item_board_id item);
     row_type := item_type item;
     row_x := item_x item; row_y := item_y item;
     row_width := item_width item; row_height := item_height item;
     row_content := item_content item;
     row_style := styleOrEmpty (item_style item);
     row_z_index := default 0 (item_z_index item);
     row_created_at := now; row_updated_at := now |}.

(** What the schema's constraints ask of a sync request: the ids sent are
    pairwise distinct, none belongs to a row of another board, and the board
    exists as soon as one row is to be inserted. *)
Definition syncAccepts (body : SyncBody) (db : Db) : Prop :=
  let board := default "default"%string (sync_board_id body) in
  let sent := default [] (sync_items body) in
  let sentTodos := default [] (sync_todos body) in
  NoDup (map item_id sent) /\
  NoDup (map todo_id sentTodos) /\
  (forall r, r ∈ items db -> row_board_id r <> board ->
             row_id r ∉ map item_id sent) /\
  (forall t, t ∈ todos db -> trow_board_id t <> board ->
             trow_id t ∉ map todo_id sentTodos) /\
  (sent <> [] \/ sentTodos <> [] -> hasBoard board db = true).

(** The store a committed sync transaction leaves. *)
Definition syncedDb (now : Z) (body : SyncBody) (db : Db) : Db :=
  let board := default "default"%string (sync_board_id body) in
  mkDb (boards (match sync_viewport body with
                | Some (x, y, z) => updateViewport now board x y z db
                | None => db
                end))
       (List.filter (fun r => negb (bool_decide (row_board_id r = board))) (items db)
        ++ map (syncItemRow now board) (default [] (sync_items body)))
       (List.filter (fun t => negb (bool_decide (trow_board_id t = board))) (todos db)
        ++ map (syncTodoRow now board) (default [] (sync_todos body))).

(** What GET shows of a todo after PUT /api/todos/:id at time [now]. *)
Definition todoUpdated (now : Z) (u : TodoUpdate) (t : Todo) : Todo :=
  {| todo_id := todo_id t;
     todo_board_id := todo_board_id t;
     todo_text := default (todo_text t) (upd_text u);
     todo_completed := match upd_completed u with
                       | Some v => Some (JBool (truthy (Some v)))
                       | None => todo_completed t
                       end;
     todo_priority := match upd_priority u with
                      | Some p => Some p
                      | None => todo_priority t
                      end;
     todo_created_at := todo_created_at t;
     todo_updated_at := Some now |}.

(** What GET shows of a todo created by POST /api/todos at time [now]. *)
Definition todoPosted (now : Z) (sent : Todo) : Todo :=
  {| todo_id := todo_id sent;
     todo_board_id := Some (default "default"%string (todo_board_id sent));
     todo_text := todo_text sent;
     todo_completed := Some (JBool false);
     todo_priority := Some (default "medium"%string (todo_priority sent));
     todo_created_at := Some now;
     todo_updated_at := Some now |}.

(** A protected route: the middleware, then the handler. *)
Definition protected {A : Type} (now : Z) (req : Request)
    (handler : A -> Response * A) (sessions : gmap string Z) (st : A)
    : Response * gmap string Z * A :=
  match requireAuth now req sessions with
  | (Next, sessions') => let (resp, st') := handler st in (resp, sessions', st')
  | (Rejected status flag, sessions') => (Denied status flag, sessions', st)
  end.

End Server.

(** * Properties *)

(** ** Minimum and maximum of rationals, by cases *)

Section MinMax.
Local Open Scope Q_scope.

Lemma Qmax_cases (a b : Q) :
  (a < b /\ Qmax a b = b) \/ (b <= a /\ Qmax a b = a).
Proof.
  unfold Qmax, GenericMinMax.gmax.
  destruct (Qcompare a b) eqn:E.
  - right. split; [apply Qeq_alt in E; lra | reflexivity].
  - left. split; [now apply Qlt_alt | reflexivity].
  - right. split; [apply Qgt_alt in E; lra | reflexivity].
Qed.

Lemma Qmin_cases (a b : Q) :
  (a <= b /\ Qmin a b = a) \/ (b < a /\ Qmin a b = b).
Proof.
  unfold Qmin, GenericMinMax.gmin.
  destruct (Qcompare a b) eqn:E.
  - left. split; [apply Qeq_alt in E; lra | reflexivity].
  - left. split; [apply Qlt_alt in E; lra | reflexivity].
  - right. split; [now apply Qgt_alt | reflexivity].
Qed.


End MinMax.

Ltac minmax_cases :=
  repeat match goal with
  | |- context [Qmin ?a ?b] =>
      let H := fresh "Hmin" in let E := fresh "Emin" in
      destruct (Qmin_cases a b) as [[H E] | [H E]]; rewrite E in *
  | |- context [Qmax ?a ?b] =>
      let H := fresh "Hmax" in let E := fresh "Emax" in
      destruct (Qmax_cases a b) as [[H E] | [H E]]; rewrite E in *
  end.

(** ** Viewport *)

Section ViewportProperties.
Import Canvas.
Local Open Scope Q_scope.

Lemma clamp_axis_idem (m x : Q) :
  Qmax 0 (Qmin m (Qmax 0 (Qmin m x))) = Qmax 0 (Qmin m x).
Proof. minmax_cases; first [reflexivity | lra]. Qed.

Lemma clamp_axis_bounds (extent z o : Q) :
  axisInBounds extent z (Qmax 0 (Qmin (canvasSize - extent / z) o)).
Proof.
  unfold axisInBounds. cbv zeta.
  destruct (Qlt_le_dec (canvasSize - extent / z) 0) as [Hlt | Hge];
    minmax_cases; lra.
Qed.

Lemma clamp_axis_fixed (extent z o : Q) :
  0 <= o -> o <= canvasSize - extent / z ->
  Qmax 0 (Qmin (canvasSize - extent / z) o) == o.
Proof. intros; minmax_cases; lra. Qed.

(** C6: clamping is idempotent.  For every state (origin, zoom and the
    rest) and every viewport rectangle, clamping a clamped state returns
    that same state, so in particular the same origin. *)
Theorem clampViewport_idempotent (env : Env) (s : App) :
  clampViewport env (clampViewport env s) = clampViewport env s.
Proof.
  unfold clampViewport, set_origin; simpl.
  rewrite !clamp_axis_idem. reflexivity.
Qed.

(** What the clamp establishes, whatever the state it starts from. *)
Lemma clampViewport_in_bounds (env : Env) (s : App) :
  originInBounds env (clampViewport env s).
Proof. split; apply clamp_axis_bounds. Qed.

(** The operations that end in clampViewport leave the origin in bounds. *)
Lemma doPan_in_bounds (env : Env) (x y : Q) (s : App) :
  originInBounds env (doPan env x y s).
Proof. apply clampViewport_in_bounds. Qed.

Lemma zoomIn_in_bounds (env : Env) (s : App) :
  originInBounds env (zoomIn env s).
Proof. apply clampViewport_in_bounds. Qed.

Lemma zoomOut_in_bounds (env : Env) (s : App) :
  originInBounds env (zoomOut env s).
Proof. apply clampViewport_in_bounds. Qed.

Lemma onMinimapClick_in_bounds (env : Env) (x y : Q) (s : App) :
  originInBounds env (onMinimapClick env x y s).
Proof. apply clampViewport_in_bounds. Qed.

Lemma onWheel_in_bounds (env : Env) (x y d : Q) (s : App) :
  originInBounds env s -> originInBounds env (onWheel env x y d s).
Proof.
  intros H. unfold onWheel.
  destruct (negb _); [apply clampViewport_in_bounds | exact H].
Qed.

Lemma joystickNavigationLoop_in_bounds (env : Env) (s : App) :
  originInBounds env s -> originInBounds env (joystickNavigationLoop env s).
Proof.
  intros H. unfold joystickNavigationLoop.
  destruct (negb (joystickNavigating s)); [exact H |].
  destruct (_ || _); [apply (clampViewport_in_bounds env) | exact H].
Qed.

(** C2, at the failing input: a two-finger pinch from 200 px to 100 px on
    a 1000 px wide viewport whose origin sits at the right edge (4000, 0)
    at zoom 1.  The pinch halves the zoom and leaves the origin where it
    was; the bound for that zoom is 3000, so the origin is out of bounds
    when the fingers lift. *)
Lemma pinch_zoom_skips_clamp :
  let s := run desktopEnv pinchOut (idleApp 4000 0 1) in
  originInBounds desktopEnv (idleApp 4000 0 1) /\
  zoom s == 0.5 /\ viewport_x s == 4000 /\
  canvasSize - rect_width desktopEnv / zoom s == 3000 /\
  ~ originInBounds desktopEnv s.
Proof.
  cbv zeta. split; [| split; [| split; [| split]]].
  - split; vm_compute; split; discriminate.
  - vm_compute. reflexivity.
  - vm_compute. reflexivity.
  - vm_compute. reflexivity.
  - intros [H _]. vm_compute in H. destruct H as [_ H]. apply H. reflexivity.
Qed.

(** resetView does not clamp either: in a window wider than the canvas
    the centred origin is negative. *)
Lemma resetView_skips_clamp :
  viewport_x (resetView wideEnv (idleApp 0 0 1)) == -60 /\
  ~ originInBounds wideEnv (resetView wideEnv (idleApp 0 0 1)).
Proof.
  split; [vm_compute; reflexivity |].
  intros [H _]. vm_compute in H. discriminate H.
Qed.

(** Keyboard navigation bounds the origin by hand, from one side only: in
    a 1920 px wide window at zoom 0.25 the canvas is narrower than the
    view, the clamp would pin the origin to 0, and one step to the right
    sets it to 5000 - 1920/0.25. *)
Lemma navigationLoop_skips_clamp :
  originInBounds hdEnv (idleApp 0 0 0.25) /\
  viewport_x (step hdEnv (idleApp 0 0 0.25) (OpKeyDown "right" false)) == -2680 /\
  ~ originInBounds hdEnv (step hdEnv (idleApp 0 0 0.25) (OpKeyDown "right" false)).
Proof.
  split; [| split].
  - split; vm_compute; [reflexivity | split; discriminate].
  - vm_compute. reflexivity.
  - intros [H _]. vm_compute in H. discriminate H.
Qed.

Lemma wheelZoom_range (deltaY : Q) (s : App) :
  minZoom <= wheelZoom deltaY s /\ wheelZoom deltaY s <= maxZoom.
Proof.
  unfold wheelZoom, minZoom, maxZoom. cbv zeta.
  split; minmax_cases; lra.
Qed.

(** C1 as stated fails: at origin (0, 0) and zoom 1 the pixel (100, 100)
    shows the canvas point (100, 100); one wheel step out at that pixel
    asks for the origin 100 - 100/0.9 < 0, the clamp moves it to 0, and
    the pixel then shows (1000/9, 1000/9). *)
Lemma onWheel_anchor_moves_under_clamp :
  originInBounds desktopEnv (idleApp 0 0 1) /\
  canvasPointAt desktopEnv (idleApp 0 0 1) 100 100 = (100, 100) /\
  samePoint
    (canvasPointAt desktopEnv (onWheel desktopEnv 100 100 1 (idleApp 0 0 1)) 100 100)
    (1000 / 9, 1000 / 9) /\
  ~ samePoint
      (canvasPointAt desktopEnv (onWheel desktopEnv 100 100 1 (idleApp 0 0 1)) 100 100)
      (canvasPointAt desktopEnv (idleApp 0 0 1) 100 100).
Proof.
  split; [| split; [| split]].
  - split; vm_compute; split; discriminate.
  - vm_compute. reflexivity.
  - split; vm_compute; reflexivity.
  - intros [H _]. vm_compute in H. discriminate H.
Qed.

(** C1, amended: for a zoom in [minZoom, maxZoom] and any anchor pixel, a
    wheel step displaces the canvas point under the anchor by exactly the
    amount by which the clamp moves the origin the handler solved for,
    canvasAnchor - anchorScreen/newZoom.  So the anchor keeps its canvas
    point whenever that origin already lies in the clamp range
    [0, canvasSize - extent/newZoom] on both axes. *)
Theorem onWheel_anchor_invariant (env : Env) (s : App) (clientX clientY deltaY : Q) :
  minZoom <= zoom s -> zoom s <= maxZoom ->
  let newZoom := wheelZoom deltaY s in
  let mouseX := clientX - rect_left env in
  let mouseY := clientY - rect_top env in
  let originX := viewport_x s + mouseX / zoom s - mouseX / newZoom in
  let originY := viewport_y s + mouseY / zoom s - mouseY / newZoom in
  let after := onWheel env clientX clientY deltaY s in
  (fst (canvasPointAt env after clientX clientY)
     - fst (canvasPointAt env s clientX clientY) == viewport_x after - originX /\
   snd (canvasPointAt env after clientX clientY)
     - snd (canvasPointAt env s clientX clientY) == viewport_y after - originY) /\
  ((0 <= originX /\ originX <= canvasSize - rect_width env / newZoom) ->
   (0 <= originY /\ originY <= canvasSize - rect_height env / newZoom) ->
   samePoint (canvasPointAt env after clientX clientY)
             (canvasPointAt env s clientX clientY)).
Proof.
  intros Hlo Hhi newZoom mouseX mouseY originX originY after.
  subst after. unfold onWheel. fold newZoom.
  destruct (Qeq_bool newZoom (zoom s)) eqn:E; simpl.
  - apply Qeq_bool_iff in E.
    split; [| intros _ _; split; reflexivity].
    unfold originX, originY. rewrite E. split; ring.
  - fold mouseX mouseY originX originY. split.
    + split; unfold originX, originY, mouseX, mouseY; ring.
    + intros [Hx0 Hx1] [Hy0 Hy1]. split; simpl.
      * rewrite (clamp_axis_fixed _ _ _ Hx0 Hx1). unfold originX, mouseX. ring.
      * rewrite (clamp_axis_fixed _ _ _ Hy0 Hy1). unfold originY, mouseY. ring.
Qed.

Lemma onWheel_anchor_invariant_witness :
  samePoint
    (canvasPointAt desktopEnv (onWheel desktopEnv 100 100 1 (idleApp 1000 1000 1)) 100 100)
    (canvasPointAt desktopEnv (idleApp 1000 1000 1) 100 100).
Proof.
  apply onWheel_anchor_invariant.
  - vm_compute. discriminate.
  - vm_compute. discriminate.
  - split; vm_compute; discriminate.
  - split; vm_compute; discriminate.
Defined.

(** ** Navigation loops *)

(** Starting a loop whose flag is set does nothing. *)
Lemma startNavigation_active (env : Env) (s : App) :
  isNavigating s = true -> startNavigation env s = s.
Proof. intros H. unfold startNavigation. now rewrite H. Qed.

Lemma startJoystickNavigation_active (env : Env) (s : App) :
  joystickNavigating s = true -> startJoystickNavigation env s = s.
Proof. intros H. unfold startJoystickNavigation. now rewrite H. Qed.

(** A loop that finds no key held, or the joystick released, clears its
    flag and queues nothing. *)
Lemma navigationLoop_stops (env : Env) (s : App) :
  keysPressed s = ∅ ->
  navigationLoop env s = set_isNavigating false s /\
  frameQueue (navigationLoop env s) = frameQueue s.
Proof.
  intros H. unfold navigationLoop.
  rewrite (bool_decide_eq_true_2 _ H), orb_true_r. split; reflexivity.
Qed.

Lemma joystickNavigationLoop_stops (env : Env) (s : App) :
  joystickNavigationLoop env (resetJoystick s) = resetJoystick s.
Proof. reflexivity. Qed.

(** The bound as an invariant of runs.  As long as no navigation key is
    held, every operation other than resetView, a two-finger move and a
    navigation key press keeps the origin in bounds; a display frame does,
    whatever callbacks are queued. *)
Lemma runCallback_settled (env : Env) (s : App) (cb : Callback) :
  settled env s -> settled env (runCallback env s cb).
Proof.
  intros [Hb Hk]. destruct cb; simpl.
  - destruct (navigationLoop_stops env s Hk) as [-> _]. split; assumption.
  - split; [now apply joystickNavigationLoop_in_bounds |].
    unfold joystickNavigationLoop.
    destruct (negb (joystickNavigating s)); [exact Hk |].
    destruct (_ || _); exact Hk.
Qed.

Lemma callbacks_settled (env : Env) (q : list Callback) : forall s,
  settled env s -> settled env (fold_left (runCallback env) q s).
Proof.
  induction q as [| cb q IH]; intros s H; simpl; [exact H |].
  apply IH, runCallback_settled, H.
Qed.

Lemma step_settled (env : Env) (s : App) (op : ViewOp) :
  clampedOp op = true -> settled env s -> settled env (step env s op).
Proof.
  intros Hop [Hb Hk].
  destruct op; simpl in *; try discriminate.
  - split; assumption.
  - destruct (isPanning s);
      [split; [apply doPan_in_bounds | exact Hk] | split; assumption].
  - destruct (isPanning s); split; assumption.
  - split; [now apply onWheel_in_bounds |].
    unfold onWheel. destruct (negb _); exact Hk.
  - split; [apply zoomIn_in_bounds | exact Hk].
  - split; [apply zoomOut_in_bounds | exact Hk].
  - split; [apply onMinimapClick_in_bounds | exact Hk].
  - unfold onTouchStart. destruct (touches e) as [| t [| t' [| t'' l]]];
      try (split; assumption).
    destruct (negb (onItem e)); split; assumption.
  - unfold onTouchMove. destruct (touches e) as [| t [| t' [| t'' l]]];
      try discriminate; try (split; assumption).
    destruct (isPanning s);
      [split; [apply doPan_in_bounds | exact Hk] | split; assumption].
  - unfold onTouchEnd. destruct (touches e); split; assumption.
  - unfold onKeyUp. simpl. rewrite Hk.
    assert (E : (∅ : gset string) ∖ {[navKey]} = ∅)
      by (apply leibniz_equiv; apply empty_difference; apply empty_subseteq).
    rewrite E. rewrite bool_decide_eq_true_2 by reflexivity.
    split; [exact Hb | reflexivity].
  - split; assumption.
  - unfold onJoystickStart, startJoystickNavigation. simpl.
    destruct (joystickNavigating s); [split; assumption |].
    apply (runCallback_settled env _ JoystickNavigationLoop). split; assumption.
  - destruct (joystickActive s); split; assumption.
  - destruct (joystickActive s); split; assumption.
  - unfold animationFrame. apply callbacks_settled. split; assumption.
Qed.

Lemma run_settled (env : Env) (ops : list ViewOp) : forall s,
  forallb clampedOp ops = true -> settled env s -> settled env (run env ops s).
Proof.
  unfold run. induction ops as [| op ops IH]; intros s Hops H; simpl; [exact H |].
  simpl in Hops. apply andb_true_iff in Hops as [Hop Hops].
  apply IH; [exact Hops |]. now apply step_settled.
Qed.

(** C9, at the failing input: a navigation key is pressed, released, and
    another one pressed before the next display frame.  The release clears
    the flag while the first callback is still queued, so the second press
    starts a second loop: two callbacks are queued, both run in the next
    frame and both queue themselves again, and the viewport moves two
    steps per frame. *)
Lemma navigation_loop_runs_twice :
  let s := run desktopEnv rollKeys (idleApp 1000 1000 1) in
  instances NavigationLoop
    (run desktopEnv [OpKeyDown "up" false] (idleApp 1000 1000 1)) = 1%nat /\
  instances NavigationLoop s = 2%nat /\
  instances NavigationLoop (step desktopEnv s OpFrame) = 2%nat /\
  viewport_x (step desktopEnv s OpFrame) == viewport_x s + 2 * navigationSpeed.
Proof.
  cbv zeta. split; [vm_compute; reflexivity |].
  split; [vm_compute; reflexivity |].
  split; vm_compute; reflexivity.
Qed.

(** The joystick loop doubles in the same way. *)
Lemma joystick_loop_runs_twice :
  let s := run desktopEnv [OpJoystickStart; OpJoystickEnd; OpJoystickStart]
             (idleApp 1000 1000 1) in
  instances JoystickNavigationLoop s = 2%nat /\
  instances JoystickNavigationLoop (step desktopEnv s OpFrame) = 2%nat.
Proof. cbv zeta. split; vm_compute; reflexivity. Qed.

End ViewportProperties.

(** ** Double-precision rounding *)

Section RoundingProperties.
Import Binary64.
Local Open Scope Q_scope.


(** Powers of two. *)
Lemma two_power_pos (e : Z) : 0 < 2 ^ e.
Proof. apply Qpower_0_lt. reflexivity. Qed.

Lemma two_power_succ (e : Z) : 2 ^ (e + 1) == 2 * 2 ^ e.
Proof. rewrite Qpower_plus by discriminate. rewrite Qpower_1_r. ring. Qed.


Lemma exponent_upper (a : Q) : 0 < a -> a / 2 ^ exponent a < 2 ^ 53.
Proof.
  intros Ha. unfold exponent. cbv zeta.
  set (e0 := (Z.log2 (Qnum a) - Z.log2 (Z.pos (Qden a)) - 53)%Z).
  destruct (Qle_bool (2 ^ 53) (a / 2 ^ e0)) eqn:E.
  - clear E.
    assert (H : a / 2 ^ (e0 + 1) == a / 2 ^ e0 / 2).
    { rewrite two_power_succ. field. pose proof (two_power_pos e0). lra. }
    rewrite H.
    apply Qlt_shift_div_r; [reflexivity |].
    apply Qlt_shift_div_r; [apply two_power_pos |].
    destruct a as [n d]. cbn [Qnum Qden] in e0.
    assert (Hn : (0 < n)%Z).
    { unfold Qlt in Ha. simpl in Ha. lia. }
    destruct (Z.log2_spec n Hn) as [_ Hn2].
    destruct (Z.log2_spec (Z.pos d) (Pos2Z.is_pos d)) as [Hd1 _].
    set (ln := Z.log2 n) in *. set (ld := Z.log2 (Z.pos d)) in *.
    assert (Hln : (0 <= ln)%Z) by apply Z.log2_nonneg.
    assert (Hld : (0 <= ld)%Z) by apply Z.log2_nonneg.
    assert (Qn : inject_Z n < 2 ^ (ln + 1)).
    { rewrite <- (Zpower_Qpower 2 (ln + 1)) by lia.
      rewrite <- Zlt_Qlt. replace (ln + 1)%Z with (Z.succ ln) by lia. exact Hn2. }
    assert (Qd : 2 ^ ld <= inject_Z (Z.pos d)).
    { rewrite <- (Zpower_Qpower 2 ld Hld). now rewrite <- Zle_Qle. }
    assert (Hd : 0 < inject_Z (Z.pos d)) by reflexivity.
    assert (Ea : n # d == inject_Z n / inject_Z (Z.pos d)) by apply Qmake_Qdiv.
    rewrite Ea.
    apply Qlt_shift_div_r; [exact Hd |].
    assert (Ep : 2 ^ 53 * 2 * 2 ^ e0 * 2 ^ ld == 2 ^ (ln + 1)).
    { change (2 ^ 53 * 2) with (2 ^ 54).
      rewrite <- !Qpower_plus by discriminate.
      replace (54 + e0 + ld)%Z with (ln + 1)%Z by (unfold e0, ln, ld; lia).
      reflexivity. }
    pose proof (two_power_pos e0) as P0.
    assert (Pc : 0 < 2 ^ 53 * 2 * 2 ^ e0)
      by (apply Qmult_lt_0_compat; [reflexivity | exact P0]).
    set (c := 2 ^ 53 * 2 * 2 ^ e0) in *.
    set (D := inject_Z (Z.pos d)) in *. set (T := 2 ^ ld) in *.
    assert (c * T <= c * D) by (apply Qmult_le_l; [exact Pc | lra]).
    lra.
  - destruct (Qlt_le_dec (a / 2 ^ e0) (2 ^ 53)) as [H | H]; [exact H |].
    apply Qle_bool_iff in H. congruence.
Qed.




End RoundingProperties.

(** ** Items *)

Section ItemProperties.
Import Binary64.
Import Items.
Local Open Scope Q_scope.










(** A later resize writes max(50, start + delta) and applies no cap. *)
Lemma doResize_exceeds_maxSize :
  let s := doResize 700 500 (startResize 0 0 photoItem sampleState) in
  map item_width (items s) = [None; Some (Qmax 50 (400 + (700 - 0) / 1))] /\
  Qmax 50 (400 + (700 - 0) / 1) == 1100.
Proof. split; [reflexivity | vm_compute; reflexivity]. Qed.

(** C8: saving while the trimmed text of the editor is empty cancels.  The
    state that results is the one closeTextEditor gives: the item list is
    the same list (nothing created, edited or deleted), no request is
    issued, the selection stays, and the editor is closed. *)
Theorem saveTextItem_blank_cancels (newId : string) (s : State) :
  trim (textInput s) = EmptyString ->
  let s' := saveTextItem newId s in
  s' = closeTextEditor s /\
  items s' = items s /\
  requests s' = requests s /\
  selectedItem s' = selectedItem s /\
  textEditorShown s' = false /\
  editingItemId s' = None /\
  pendingTextPosition s' = None.
Proof.
  intros Hblank s'. subst s'. unfold saveTextItem.
  rewrite Hblank. rewrite bool_decide_eq_true_2 by reflexivity.
  repeat split.
Qed.

Lemma saveTextItem_blank_cancels_witness :
  editingItemId blankEdit = Some "1700000000000_goal"%string /\
  textEditorShown blankEdit = true /\
  items (saveTextItem "1700000001000_new" blankEdit) = [noteItem; photoItem] /\
  textEditorShown (saveTextItem "1700000001000_new" blankEdit) = false.
Proof.
  split; [reflexivity |]. split; [reflexivity |].
  destruct (saveTextItem_blank_cancels "1700000001000_new" blankEdit)
    as (_ & Hitems & _ & _ & Hshown & _); [reflexivity |].
  split; [exact Hitems | exact Hshown].
Defined.

(** With text left after trimming, the same call edits the item. *)
Lemma saveTextItem_nonblank_edits :
  let s := set_editor (Some "1700000000000_goal"%string) None defaultTextStyle
             "  Dream  " true sampleState in
  map item_content (items (saveTextItem "1700000001000_new" s))
  = [Some "Dream"%string; item_content photoItem].
Proof. vm_compute. reflexivity. Qed.

(** C10: deleting an id that is on the board removes its first item and
    clears the selection, whichever item was selected; deleting an id that
    is not on the board changes nothing. *)
Theorem deleteItem_clears_selection (id : string) (s : State) :
  (id ∈ map item_id (items s) ->
     selectedItem (deleteItem id s) = None /\
     exists before item after,
       items s = before ++ item :: after /\
       item_id item = id /\
       (id ∉ map item_id before) /\
       items (deleteItem id s) = before ++ after) /\
  (id ∉ map item_id (items s) -> deleteItem id s = s).
Proof.
  unfold deleteItem. split.
  - intros Hin.
    destruct (list_find (fun i => item_id i = id) (items s))
      as [[index item] |] eqn:E.
    + split; [reflexivity |].
      apply list_find_Some in E as (Hl & Hid & Hfirst).
      exists (take index (items s)), item, (drop (S index) (items s)).
      split; [symmetry; now apply take_drop_middle |].
      split; [exact Hid |]. split.
      * intros Hb. apply list_elem_of_fmap in Hb as (y & Hy & Hb).
        apply list_elem_of_lookup in Hb as (j & Hj).
        apply lookup_take_Some in Hj as [Hj Hlt].
        apply (Hfirst j y Hj Hlt). now symmetry.
      * simpl. apply delete_take_drop.
    + exfalso. apply list_find_None in E.
      apply list_elem_of_fmap in Hin as (y & Hy & Hin).
      rewrite Forall_forall in E. apply (E y); [exact Hin | now symmetry].
  - intros Hnot.
    destruct (list_find (fun i => item_id i = id) (items s))
      as [[index item] |] eqn:E; [| reflexivity].
    exfalso. apply list_find_Some in E as (Hl & Hid & _).
    apply Hnot. apply list_elem_of_fmap. exists item. split; [now symmetry |].
    apply list_elem_of_lookup. eauto.
Qed.

Lemma deleteItem_clears_selection_witness :
  selectedItem sampleState = Some (item_id noteItem) /\
  selectedItem (deleteItem (item_id photoItem) sampleState) = None /\
  items (deleteItem (item_id photoItem) sampleState) = [noteItem] /\
  deleteItem "missing" sampleState = sampleState.
Proof.
  pose proof (deleteItem_clears_selection (item_id photoItem) sampleState) as [Hin _].
  pose proof (deleteItem_clears_selection "missing" sampleState) as [_ Hout].
  split; [reflexivity |]. split; [| split].
  - apply Hin. vm_compute. right. left.
  - vm_compute. reflexivity.
  - apply Hout. vm_compute. intros H. inversion H as [| ? ? ? H']; subst.
    inversion H' as [| ? ? ? H'']; subst. inversion H''.
Defined.

End ItemProperties.

(** ** Backend *)

Section ServerProperties.
Import Server.
Local Open Scope Z_scope.

(** A request with no token, or with one the session map does not hold,
    is answered 401 with needsAuth, and the map is left as it was. *)
Lemma requireAuth_unknown_token (now : Z) (req : Request) (sessions : gmap string Z) :
  (forall t, orToken (header_token req) (query_token req) = Some t ->
             sessions !! t = None) ->
  requireAuth now req sessions = (Rejected 401 true, sessions).
Proof.
  intros H. unfold requireAuth.
  destruct (orToken _ _) as [t |] eqn:E; [| reflexivity].
  rewrite (H t eq_refl).
  rewrite (bool_decide_eq_false_2 (is_Some None)) by (intros [? ?]; discriminate).
  rewrite orb_true_r. reflexivity.
Qed.

(** So a protected route answers such a request 401 with needsAuth and
    does not run its handler. *)
Lemma protected_unknown_token {A : Type} (now : Z) (req : Request)
    (handler : A -> Response * A) (sessions : gmap string Z) (st : A) :
  (forall t, orToken (header_token req) (query_token req) = Some t ->
             sessions !! t = None) ->
  protected now req handler sessions st = (Denied 401 true, sessions, st).
Proof.
  intros H. unfold protected.
  rewrite (requireAuth_unknown_token now req sessions H). reflexivity.
Qed.

(** The middleware never reads the expiry it stored. *)
Lemma requireAuth_ignores_expiry (now expiry : Z) (t : string) (q : option string)
    (sessions : gmap string Z) :
  t <> EmptyString -> sessions !! t = Some expiry ->
  requireAuth now (mkRequest (Some t) q) sessions
  = (Next, <[t := now + sessionLifetime]> sessions).
Proof.
  intros Ht Hs. unfold requireAuth, orToken; simpl.
  rewrite (bool_decide_eq_false_2 _ Ht).
  rewrite (bool_decide_eq_false_2 _ Ht), Hs.
  rewrite (bool_decide_eq_true_2 (is_Some (Some expiry))) by eauto.
  reflexivity.
Qed.

(** C3, at the failing input: the session of the token expired at time
    1000 and the hourly sweep has not run since.  A request presenting the
    token at time 5000 is passed on to the handler and the session gets a
    fresh 24 hours, so GET /api/board/default answers with the board; a
    sweep at that same time would have removed the session. *)
Lemma requireAuth_accepts_expired_token :
  staleSessions !! "t0k3n"%string = Some 1000 /\
  1000 < 5000 /\
  requireAuth 5000 staleRequest staleSessions
  = (Next, {[ "t0k3n"%string := 5000 + sessionLifetime ]}) /\
  protected 5000 staleRequest (getBoard 5000 "default") staleSessions freshDb
  = (Board (mkBoardInfo "default" "Mein Visionboard" (0%Q, 0%Q) 1%Q) [] [],
     {[ "t0k3n"%string := 5000 + sessionLifetime ]}, freshDb) /\
  cleanExpiredSessions 5000 staleSessions = ∅.
Proof.
  assert (Hauth : requireAuth 5000 staleRequest staleSessions
                  = (Next, {[ "t0k3n"%string := 5000 + sessionLifetime ]})).
  { unfold staleRequest, staleSessions.
    rewrite (requireAuth_ignores_expiry 5000 1000); [| discriminate | reflexivity].
    reflexivity. }
  split; [reflexivity |]. split; [lia |]. split; [exact Hauth |]. split.
  - unfold protected. rewrite Hauth. reflexivity.
  - unfold cleanExpiredSessions, staleSessions.
    apply map_filter_singleton_False. simpl. lia.
Qed.

(** C5: a PUT whose body supplies only x answers success; in the store
    every item row with that id has the new x and the time of the request
    as updated_at and all its other columns as before, every other item
    row is untouched, and so are the boards and the todos. *)
Theorem putItem_only_x (now : Z) (id : string) (v : Q) (db : Db) :
  let db' := snd (putItem now id (onlyX v) db) in
  fst (putItem now id (onlyX v) db) = Success /\
  boards db' = boards db /\
  todos db' = todos db /\
  Forall2
    (fun r r' =>
       if bool_decide (row_id r = id) then
         row_x r' = v /\ row_updated_at r' = now /\
         row_id r' = row_id r /\ row_board_id r' = row_board_id r /\
         row_type r' = row_type r /\ row_y r' = row_y r /\
         row_width r' = row_width r /\ row_height r' = row_height r /\
         row_content r' = row_content r /\ row_style r' = row_style r /\
         row_z_index r' = row_z_index r /\ row_created_at r' = row_created_at r
       else r' = r)
    (items db) (items db').
Proof.
  simpl. repeat split.
  induction (items db) as [| r l IH]; simpl; constructor; [| exact IH].
  destruct (bool_decide (row_id r = id)); [| reflexivity].
  repeat split.
Qed.

(** *** Full sync, then GET *)

Lemma hasBoard_updateViewport now id x y z b db :
  hasBoard b (updateViewport now id x y z db) = hasBoard b db.
Proof.
  unfold hasBoard, updateViewport; simpl.
  induction (boards db) as [| r l IH]; simpl; [reflexivity |].
  rewrite IH. f_equal. destruct (bool_decide (board_id r = id)); reflexivity.
Qed.

Lemma hasBoard_find board db :
  hasBoard board db = true ->
  exists b, List.find (fun b => bool_decide (board_id b = board)) (boards db) = Some b.
Proof.
  unfold hasBoard. induction (boards db) as [| b l IH]; simpl; [discriminate |].
  destruct (bool_decide (board_id b = board)); simpl; eauto.
Qed.

Lemma existsb_false_iff {A} (p : A -> bool) (l : list A) :
  existsb p l = false <-> forall a, a ∈ l -> p a = false.
Proof.
  induction l as [| a l IH]; simpl.
  - split; [intros _ a Ha; inversion Ha | reflexivity].
  - rewrite orb_false_iff, IH. split.
    + intros [Ha Hl] b Hb. apply elem_of_cons in Hb as [-> | Hb]; auto.
    + intros H. split; [apply H; left | intros b Hb; apply H; now right].
Qed.

Lemma filter_none {A} (p : A -> bool) (l : list A) :
  (forall a, a ∈ l -> p a = false) -> List.filter p l = [].
Proof.
  induction l as [| a l IH]; intros H; simpl; [reflexivity |].
  rewrite (H a) by left. apply IH. intros b Hb. apply H. now right.
Qed.

Lemma filter_all {A} (p : A -> bool) (l : list A) :
  (forall a, a ∈ l -> p a = true) -> List.filter p l = l.
Proof.
  induction l as [| a l IH]; intros H; simpl; [reflexivity |].
  rewrite (H a) by left. f_equal. apply IH. intros b Hb. apply H. now right.
Qed.

(** Selecting a board's rows after its old rows were deleted and the new
    ones appended gives the new ones. *)
Lemma filter_kept_and_new {A B} (p : A -> bool) (f : B -> A)
    (old : list A) (new : list B) :
  (forall b, p (f b) = true) ->
  List.filter p (List.filter (fun a => negb (p a)) old ++ map f new) = map f new.
Proof.
  intros Hf. rewrite List.filter_app.
  rewrite filter_none, filter_all; [reflexivity | |].
  - intros a Ha. apply list_elem_of_In, in_map_iff in Ha as (b & <- & _). apply Hf.
  - intros a Ha. apply list_elem_of_In, List.filter_In in Ha as [_ Ha].
    now apply negb_true_iff in Ha.
Qed.

(** The insertion loop succeeds on fresh, pairwise distinct ids. *)
Lemma insertItems_ok now board (l : list Item) : forall db,
  hasBoard board db = true ->
  NoDup (map item_id l) ->
  (forall r, r ∈ items db -> row_id r ∉ map item_id l) ->
  insertItems now board l db
  = Some (mkDb (boards db) (items db ++ map (syncItemRow now board) l) (todos db)).
Proof.
  induction l as [| i l IH]; intros db Hb Hnd Hfresh; simpl.
  - rewrite app_nil_r. destruct db; reflexivity.
  - apply NoDup_cons in Hnd as [Hi Hnd].
    unfold insertItem. simpl.
    assert (E : existsb (fun r' => bool_decide (row_id r' = item_id i)) (items db)
                = false).
    { apply existsb_false_iff. intros r Hr. apply bool_decide_eq_false_2.
      intros Heq. apply (Hfresh r Hr). simpl. rewrite Heq. left. }
    rewrite E, Hb. simpl.
    rewrite IH; simpl; [| exact Hb | exact Hnd |].
    + rewrite <- app_assoc. reflexivity.
    + intros r Hr. apply elem_of_app in Hr as [Hr | Hr].
      * intros Hin. apply (Hfresh r Hr). simpl. now right.
      * apply list_elem_of_singleton in Hr as ->. simpl. exact Hi.
Qed.

Lemma insertTodos_ok now board (l : list Todo) : forall db,
  hasBoard board db = true ->
  NoDup (map todo_id l) ->
  (forall t, t ∈ todos db -> trow_id t ∉ map todo_id l) ->
  insertTodos now board l db
  = Some (mkDb (boards db) (items db) (todos db ++ map (syncTodoRow now board) l)).
Proof.
  induction l as [| i l IH]; intros db Hb Hnd Hfresh; simpl.
  - rewrite app_nil_r. destruct db; reflexivity.
  - apply NoDup_cons in Hnd as [Hi Hnd].
    unfold insertTodo. simpl.
    assert (E : existsb (fun t' => bool_decide (trow_id t' = todo_id i)) (todos db)
                = false).
    { apply existsb_false_iff. intros r Hr. apply bool_decide_eq_false_2.
      intros Heq. apply (Hfresh r Hr). simpl. rewrite Heq. left. }
    rewrite E, Hb. simpl.
    rewrite IH; simpl; [| exact Hb | exact Hnd |].
    + rewrite <- app_assoc. reflexivity.
    + intros r Hr. apply elem_of_app in Hr as [Hr | Hr].
      * intros Hin. apply (Hfresh r Hr). simpl. now right.
      * apply list_elem_of_singleton in Hr as ->. simpl. exact Hi.
Qed.

Lemma getBoard_existing now board db b :
  hasBoard board db = true ->
  List.find (fun b => bool_decide (board_id b = board)) (boards db) = Some b ->
  getBoard now board db
  = (Board (mkBoardInfo (board_id b) (board_name b)
              (board_viewport_x b, board_viewport_y b) (board_zoom b))
       (map itemOfRow
          (merge_sort byZIndex
             (List.filter (fun r => bool_decide (row_board_id r = board)) (items db))))
       (map todoOfRow
          (merge_sort byCreatedDesc
             (List.filter (fun t => bool_decide (trow_board_id t = board)) (todos db)))),
     db).
Proof. intros H F. unfold getBoard. rewrite H, F. reflexivity. Qed.

Lemma byZIndex_total : Total byZIndex.
Proof. intros a b. unfold byZIndex. lia. Qed.

Lemma byCreatedDesc_total : Total byCreatedDesc.
Proof. intros a b. unfold byCreatedDesc. lia. Qed.

Lemma Sorted_map {A B} (R : relation A) (S : relation B) (f : A -> B) (l : list A) :
  (forall a b, R a b -> S (f a) (f b)) -> Sorted R l -> Sorted S (map f l).
Proof.
  intros H. induction 1 as [| a l Hs IH Hd]; simpl; constructor; [exact IH |].
  destruct Hd; simpl; constructor. now apply H.
Qed.

Lemma echo_of_sorted_rows {A R B} (rel : A -> B -> Prop) (toRow : A -> R)
    (ofRow : R -> B) (sent : list A) (rows : list R) :
  rows ≡ₚ map toRow sent ->
  (forall a, rel a (ofRow (toRow a))) ->
  exists l, l ≡ₚ sent /\ Forall2 rel l (map ofRow rows).
Proof.
  intros Hp Hrel.
  destruct (Permutation_map_inv toRow sent Hp) as (l & -> & Hl).
  exists l. split; [now symmetry |].
  clear Hp Hl. induction l; simpl; constructor; auto.
Qed.

Lemma itemEcho_sync board now (i : Item) :
  itemEcho board now i (itemOfRow (syncItemRow now board i)).
Proof. repeat split. Qed.

Lemma todoEcho_sync board now (t : Todo) :
  todoEcho board now t (todoOfRow (syncTodoRow now board t)).
Proof.
  repeat split. simpl. destruct (truthy (todo_completed t)); reflexivity.
Qed.

(** C4 as stated fails: an item sent back as an earlier GET returned it
    (updated_at 1000) comes back from a sync at time 2000 with updated_at
    2000, and so does the todo. *)
Lemma sync_overwrites_updated_at :
  exists db' info got gotTodos,
    sync 2000 (mkSyncBody (Some "default"%string) (Some [goalItem])
                 (Some [goalTodo]) None) freshDb
      = (Synced 2000, db') /\
    getBoard 3000 "default" db' = (Board info got gotTodos, db') /\
    map item_updated_at [goalItem] = [Some 1000] /\
    map item_updated_at got = [Some 2000] /\
    got <> [goalItem] /\ gotTodos <> [goalTodo].
Proof.
  eexists _, _, _, _. split; [vm_compute; reflexivity |].
  split; [vm_compute; reflexivity |].
  split; [reflexivity |]. split; [reflexivity |].
  split; intros H; inversion H.
Qed.

(** The response lists items by z_index, not in the order sent. *)
Lemma sync_then_getBoard_reorders :
  exists db' info got gotTodos,
    sync 2000 (mkSyncBody None (Some [upperNote; lowerNote]) None None) freshDb
      = (Synced 2000, db') /\
    getBoard 3000 "default" db' = (Board info got gotTodos, db') /\
    map item_id got = ["b"%string; "a"%string].
Proof.
  eexists _, _, _, _. split; [vm_compute; reflexivity |].
  split; [vm_compute; reflexivity |]. reflexivity.
Qed.

(** A payload that repeats an id is refused and stores nothing. *)
Lemma sync_duplicate_id_fails :
  sync 2000 (mkSyncBody None (Some [goalItem; goalItem]) None None) freshDb
  = (Failure 500, freshDb).
Proof. vm_compute. reflexivity. Qed.

(** C4, amended: for an existing board, and items and todos whose ids are
    pairwise distinct and not used by rows of other boards, a sync at time
    [now] succeeds, and a GET of the board afterwards leaves the store as
    it is and returns, up to order, one item per item sent and one todo
    per todo sent.  Each returned item equals the one sent in id, type, x,
    y, width, height and content; its style is the one sent (an empty
    object when none or a falsy one was sent), its z_index the one sent
    (0 when absent), its created_at the one sent (the time of the sync
    when absent or 0); its updated_at is the time of the sync and its
    board_id the synced board.  Each returned todo equals the one sent in
    id and text; completed is the boolean the sent flag coerces to,
    priority the one sent ("medium" when absent or empty), created_at,
    updated_at and board_id as for items.  Items come ordered by z_index,
    todos by created_at, newest first. *)
Theorem sync_then_getBoard (now now' : Z) (board : string)
    (sent : list Item) (sentTodos : list Todo) (vp : option (Q * Q * Q)) (db : Db) :
  hasBoard board db = true ->
  NoDup (map item_id sent) ->
  NoDup (map todo_id sentTodos) ->
  (forall r, r ∈ items db -> row_board_id r <> board ->
             row_id r ∉ map item_id sent) ->
  (forall t, t ∈ todos db -> trow_board_id t <> board ->
             trow_id t ∉ map todo_id sentTodos) ->
  exists db' info got gotTodos,
    sync now (mkSyncBody (Some board) (Some sent) (Some sentTodos) vp) db
      = (Synced now, db') /\
    getBoard now' board db' = (Board info got gotTodos, db') /\
    (exists l, l ≡ₚ sent /\ Forall2 (itemEcho board now) l got) /\
    Sorted zIndexOrder got /\
    (exists l, l ≡ₚ sentTodos /\ Forall2 (todoEcho board now) l gotTodos) /\
    Sorted newestFirst gotTodos.
Proof.
  intros Hb Hnd HndT Hfresh HfreshT.
  unfold sync. simpl.
  set (db1 := match vp with
              | Some (x, y, z) => updateViewport now board x y z db
              | None => db
              end).
  assert (Hb1 : hasBoard board db1 = true).
  { subst db1. destruct vp as [[[x y] z] |]; [| exact Hb].
    now rewrite hasBoard_updateViewport. }
  assert (Hi1 : items db1 = items db).
  { subst db1. destruct vp as [[[x y] z] |]; reflexivity. }
  assert (Ht1 : todos db1 = todos db).
  { subst db1. destruct vp as [[[x y] z] |]; reflexivity. }
  rewrite insertItems_ok; simpl; [| exact Hb1 | exact Hnd |].
  2:{ intros r Hr. apply list_elem_of_In, List.filter_In in Hr as [Hr Hne].
      rewrite Hi1 in Hr. apply list_elem_of_In in Hr.
      apply (Hfresh r Hr). apply negb_true_iff in Hne.
      now apply bool_decide_eq_false_1 in Hne. }
  rewrite insertTodos_ok; simpl; [| exact Hb1 | exact HndT |].
  2:{ intros r Hr. apply list_elem_of_In, List.filter_In in Hr as [Hr Hne].
      rewrite Ht1 in Hr. apply list_elem_of_In in Hr.
      apply (HfreshT r Hr). apply negb_true_iff in Hne.
      now apply bool_decide_eq_false_1 in Hne. }
  destruct (hasBoard_find board db1 Hb1) as [b Hfind].
  eexists _, _, _, _. split; [reflexivity |].
  rewrite (getBoard_existing now' board _ b) by assumption. simpl.
  rewrite (filter_kept_and_new (fun r => bool_decide (row_board_id r = board))
             (syncItemRow now board))
    by (intros i; now apply bool_decide_eq_true_2).
  rewrite (filter_kept_and_new (fun t => bool_decide (trow_board_id t = board))
             (syncTodoRow now board))
    by (intros i; now apply bool_decide_eq_true_2).
  split; [reflexivity |]. split; [| split; [| split]].
  - apply (echo_of_sorted_rows _ (syncItemRow now board)).
    + apply merge_sort_Permutation.
    + apply itemEcho_sync.
  - apply (Sorted_map byZIndex); [intros x y H; exact H |].
    apply Sorted_merge_sort, byZIndex_total.
  - apply (echo_of_sorted_rows _ (syncTodoRow now board)).
    + apply merge_sort_Permutation.
    + apply todoEcho_sync.
  - apply (Sorted_map byCreatedDesc); [intros x y H; exact H |].
    apply Sorted_merge_sort, byCreatedDesc_total.
Qed.

Lemma sync_then_getBoard_witness :
  exists db' info got gotTodos,
    sync 2000 (mkSyncBody (Some "default"%string) (Some [goalItem])
                 (Some [goalTodo]) None) freshDb
      = (Synced 2000, db') /\
    getBoard 3000 "default" db' = (Board info got gotTodos, db') /\
    (exists l, l ≡ₚ [goalItem] /\ Forall2 (itemEcho "default" 2000) l got) /\
    Sorted zIndexOrder got /\
    (exists l, l ≡ₚ [goalTodo] /\ Forall2 (todoEcho "default" 2000) l gotTodos) /\
    Sorted newestFirst gotTodos.
Proof.
  apply (sync_then_getBoard 2000 3000 "default" [goalItem] [goalTodo] None freshDb).
  - reflexivity.
  - apply NoDup_singleton.
  - apply NoDup_singleton.
  - intros r Hr. inversion Hr.
  - intros t Ht. inversion Ht.
Defined.

End ServerProperties.

(** ** Backend: the life of a session *)

Section SessionProperties.
Import Server.
Local Open Scope Z_scope.

(** X1: A login with the configured password answers with a fresh token and
    opens a session for it: the next request that carries the token, in the
    x-auth-token header or as the token query parameter, passes the auth
    middleware, and /api/auth/check reports it authenticated. A logout that
    carries the token in the header ends the session (the middleware then
    answers 401 with needsAuth and the check reports false); a logout that
    carries it only in the query parameter leaves the session as it is. A
    login with any other password is answered 401 and opens no session. *)
Theorem login_session_lifecycle (configured fresh : string) (now now' : Z)
    (sessions : gmap string Z) :
  fresh <> EmptyString ->
  let issued := postLogin configured now fresh (Some configured) sessions in
  let byHeader := mkRequest (Some fresh) None in
  let byQuery := mkRequest None (Some fresh) in
  fst issued = LoggedIn fresh /\
  fst (requireAuth now' byHeader (snd issued)) = Next /\
  fst (requireAuth now' byQuery (snd issued)) = Next /\
  authCheck byHeader (snd issued) = true /\
  requireAuth now' byHeader (logout byHeader (snd issued))
  = (Rejected 401 true, logout byHeader (snd issued)) /\
  authCheck byHeader (logout byHeader (snd issued)) = false /\
  logout byQuery (snd issued) = snd issued /\
  (forall password, password <> Some configured ->
     postLogin configured now fresh password sessions
     = (WrongPassword 401, sessions)).
Proof.
  intros Hne issued byHeader byQuery.
  assert (Hissued : issued = (LoggedIn fresh, login now fresh sessions)).
  { unfold issued, postLogin. now rewrite bool_decide_eq_true_2. }
  rewrite Hissued. simpl.
  assert (Hin : login now fresh sessions !! fresh = Some (now + sessionLifetime))
    by apply lookup_insert_eq.
  assert (Hout : logout byHeader (login now fresh sessions) !! fresh = None).
  { unfold logout, byHeader. simpl. rewrite (bool_decide_eq_false_2 _ Hne).
    apply lookup_delete_eq. }
  split; [reflexivity |].
  unfold requireAuth, authCheck, byHeader, byQuery, orToken; simpl.
  rewrite !(bool_decide_eq_false_2 _ Hne). simpl.
  rewrite Hin.
  rewrite (bool_decide_eq_true_2 (is_Some (Some _))) by eauto. simpl.
  split; [reflexivity |]. split; [reflexivity |]. split; [reflexivity |].
  unfold byHeader in Hout. rewrite Hout.
  rewrite (bool_decide_eq_false_2 (is_Some None)) by (intros [? ?]; discriminate).
  split; [reflexivity |]. split; [reflexivity |]. split; [reflexivity |].
  intros password Hp. unfold postLogin. now rewrite bool_decide_eq_false_2.
Qed.

Lemma login_session_lifecycle_witness :
  fst (requireAuth 7 (mkRequest None (Some "ab12"%string))
         (snd (postLogin "secret" 5 "ab12" (Some "secret"%string) ∅))) = Next.
Proof.
  apply (login_session_lifecycle "secret" "ab12" 5 7 ∅). discriminate.
Defined.




(** X3: /api/auth/check reports authenticated for exactly the requests the
    auth middleware lets through, whatever the token, the place it is sent
    in (x-auth-token header or token query parameter) and the sessions held. *)
Theorem authCheck_agrees_with_requireAuth (now : Z) (req : Request) (sessions : gmap string Z) :
  authCheck req sessions = true <-> fst (requireAuth now req sessions) = Next.
Proof.
  unfold authCheck, requireAuth.
  destruct (orToken _ _) as [t |]; simpl; [| split; discriminate].
  destruct (bool_decide (t = EmptyString)); simpl; [split; discriminate |].
  destruct (bool_decide (is_Some (sessions !! t))); simpl; split; congruence.
Qed.

End SessionProperties.

(** ** Backend: what a request leaves in the store *)

Section StoreProperties.
Import Server.
Local Open Scope Z_scope.

Lemma find_app_new {A} (p : A -> bool) (l : list A) (a : A) :
  existsb p l = false -> p a = true -> List.find p (l ++ [a]) = Some a.
Proof.
  induction l as [| b l IH]; simpl; intros H Ha; [now rewrite Ha |].
  apply orb_false_iff in H as [Hb Hl]. rewrite Hb. now apply IH.
Qed.

Lemma hasBoard_withNewBoard now id db : hasBoard id (withNewBoard now id db) = true.
Proof.
  unfold hasBoard, withNewBoard; simpl. rewrite existsb_app. simpl.
  rewrite bool_decide_eq_true_2 by reflexivity. now rewrite orb_true_r.
Qed.

(** What GET computes, with the store it leaves. *)
Lemma getBoard_missing now id db :
  hasBoard id db = false ->
  getBoard now id db
  = (Board (mkBoardInfo id "Neues Board" (0%Q, 0%Q) 1%Q)
       (map itemOfRow
          (merge_sort byZIndex
             (List.filter (fun r => bool_decide (row_board_id r = id)) (items db))))
       (map todoOfRow
          (merge_sort byCreatedDesc
             (List.filter (fun t => bool_decide (trow_board_id t = id)) (todos db)))),
     withNewBoard now id db).
Proof.
  intros H. unfold getBoard. rewrite H. simpl.
  rewrite find_app_new; [reflexivity | exact H | now apply bool_decide_eq_true_2].
Qed.

Lemma getBoard_shape now id db :
  exists info,
    getBoard now id db
    = (Board info
         (map itemOfRow
            (merge_sort byZIndex
               (List.filter (fun r => bool_decide (row_board_id r = id)) (items db))))
         (map todoOfRow
            (merge_sort byCreatedDesc
               (List.filter (fun t => bool_decide (trow_board_id t = id)) (todos db)))),
       if hasBoard id db then db else withNewBoard now id db).
Proof.
  destruct (hasBoard id db) eqn:H.
  - destruct (hasBoard_find id db H) as [b Hb].
    eexists. now rewrite (getBoard_existing now id db b H Hb).
  - eexists. now rewrite (getBoard_missing now id db H).
Qed.

(** X4: The first GET of a board the store does not hold creates it: the
    answer is the board named Neues Board with viewport (0, 0), zoom 1 and
    no items or todos, the board exists afterwards (its id is appended to
    the boards), and the rows of items and todos are left as they were. *)
Theorem getBoard_creates_missing_board (now : Z) (id : string) (db : Db) :
  hasBoard id db = false ->
  (forall r, r ∈ items db -> row_board_id r <> id) ->
  (forall t, t ∈ todos db -> trow_board_id t <> id) ->
  let after := snd (getBoard now id db) in
  fst (getBoard now id db)
  = Board (mkBoardInfo id "Neues Board" (0%Q, 0%Q) 1%Q) [] [] /\
  hasBoard id after = true /\
  map board_id (boards after) = map board_id (boards db) ++ [id] /\
  items after = items db /\ todos after = todos db.
Proof.
  intros H Hi Ht after. subst after.
  rewrite (getBoard_missing now id db H). cbn [fst snd].
  split; [| split; [apply hasBoard_withNewBoard | split; [| split; reflexivity]]].
  - rewrite !filter_none; [reflexivity | |].
    + intros t Hin. apply bool_decide_eq_false_2. now apply Ht.
    + intros r Hin. apply bool_decide_eq_false_2. now apply Hi.
  - unfold withNewBoard. cbn [boards]. now rewrite map_app.
Qed.

Lemma getBoard_creates_missing_board_witness :
  fst (getBoard 7 "plans" freshDb)
  = Board (mkBoardInfo "plans" "Neues Board" (0%Q, 0%Q) 1%Q) [] [] /\
  hasBoard "plans" (snd (getBoard 7 "plans" freshDb)) = true.
Proof.
  destruct (getBoard_creates_missing_board 7 "plans" freshDb) as (H1 & H2 & _).
  - reflexivity.
  - intros r Hr. inversion Hr.
  - intros t Ht. inversion Ht.
  - split; assumption.
Defined.

(** X5: Reading a board is idempotent: a second GET of the same board, at
    any later time, returns the same answer as the first and leaves the
    store as the first left it. *)
Theorem getBoard_twice (now now' : Z) (id : string) (db : Db) :
  getBoard now' id (snd (getBoard now id db)) = getBoard now id db.
Proof.
  destruct (hasBoard id db) eqn:H.
  - destruct (hasBoard_find id db H) as [b Hb].
    rewrite (getBoard_existing now id db b H Hb). simpl.
    now rewrite (getBoard_existing now' id db b H Hb).
  - rewrite (getBoard_missing now id db H). simpl.
    pose proof (hasBoard_withNewBoard now id db) as H'.
    assert (Hf : List.find (fun b => bool_decide (board_id b = id))
                   (boards (withNewBoard now id db))
                 = Some (mkBoardRow id "Neues Board" 0 0 1 now now)).
    { unfold withNewBoard; simpl. apply find_app_new; [exact H |].
      now apply bool_decide_eq_true_2. }
    now rewrite (getBoard_existing now' id _ _ H' Hf).
Qed.




Lemma map_unchanged {A} (f : A -> A) (l : list A) :
  (forall a, a ∈ l -> f a = a) -> map f l = l.
Proof.
  induction l as [| a l IH]; intros H; simpl; [reflexivity |].
  rewrite (H a) by left. f_equal. apply IH. intros b Hb. apply H. now right.
Qed.

(** X7: Updating or deleting what the store does not hold is answered with
    success and changes nothing: PUT and DELETE of an item id or a todo id
    that no row carries, and a viewport PUT for a board that does not exist,
    all answer success and leave the store exactly as it was. *)
Theorem unknown_id_is_silent_noop (now : Z) (id : string) (u : ItemUpdate)
    (tu : TodoUpdate) (x y z : Q) (db : Db) :
  (forall r, r ∈ items db -> row_id r <> id) ->
  (forall t, t ∈ todos db -> trow_id t <> id) ->
  hasBoard id db = false ->
  putItem now id u db = (Success, db) /\
  deleteItem id db = (Success, db) /\
  putTodo now id tu db = (Success, db) /\
  deleteTodo id db = (Success, db) /\
  putViewport now id x y z db = (Success, db).
Proof.
  intros Hi Ht Hb.
  unfold putItem, deleteItem, putTodo, deleteTodo, putViewport, updateViewport.
  rewrite (map_unchanged _ (items db)), (map_unchanged _ (todos db)),
          (map_unchanged _ (boards db)).
  - rewrite (filter_all _ (items db)), (filter_all _ (todos db)).
    + destruct db; repeat split.
    + intros t Hin. apply negb_true_iff, bool_decide_eq_false_2. now apply Ht.
    + intros r Hin. apply negb_true_iff, bool_decide_eq_false_2. now apply Hi.
  - intros b Hin. rewrite bool_decide_eq_false_2; [reflexivity |].
    intros Heq. unfold hasBoard in Hb.
    rewrite existsb_false_iff in Hb. specialize (Hb b Hin).
    apply bool_decide_eq_false_1 in Hb. contradiction.
  - intros t Hin. rewrite bool_decide_eq_false_2; [reflexivity | now apply Ht].
  - intros r Hin. rewrite bool_decide_eq_false_2; [reflexivity | now apply Hi].
Qed.

Lemma unknown_id_is_silent_noop_witness :
  putItem 5 "nobody" (onlyX 10) freshDb = (Success, freshDb) /\
  deleteItem "nobody" freshDb = (Success, freshDb).
Proof.
  destruct (unknown_id_is_silent_noop 5 "nobody" (onlyX 10)
              (mkTodoUpdate None None None) 0 0 1 freshDb) as (H1 & H2 & _).
  - intros r Hr. inversion Hr.
  - intros t Ht. inversion Ht.
  - reflexivity.
  - split; assumption.
Defined.

(** X8: PUT /api/items/:id never changes what identifies an item: whatever
    fields the body carries, every row keeps its id, board, type and
    creation time, no row is added or removed, rows with another id are left
    as they are, and boards and todos are untouched. *)
Theorem putItem_keeps_identity (now : Z) (id : string) (u : ItemUpdate) (db : Db) :
  let db' := snd (putItem now id u db) in
  map row_id (items db') = map row_id (items db) /\
  map row_board_id (items db') = map row_board_id (items db) /\
  map row_type (items db') = map row_type (items db) /\
  map row_created_at (items db') = map row_created_at (items db) /\
  (forall r', r' ∈ items db' -> row_id r' <> id -> r' ∈ items db) /\
  boards db' = boards db /\ todos db' = todos db.
Proof.
  simpl. repeat split.
  1-4: induction (items db) as [| r l IH]; simpl; [reflexivity |];
       rewrite IH; f_equal; destruct (bool_decide (row_id r = id)); reflexivity.
  intros r' Hin Hne. apply list_elem_of_fmap in Hin as (r & -> & Hin).
  destruct (bool_decide (row_id r = id)) eqn:E; [| exact Hin].
  exfalso. apply Hne. simpl. now apply bool_decide_eq_true_1 in E.
Qed.

Lemma itemPosted_row now (i : Item) : itemPosted now i (itemOfRow (postedRow now i)).
Proof. repeat split. Qed.

(** POST of a fresh id on an existing board appends its row. *)
Lemma postItem_ok now item db :
  hasBoard (default "default"%string (item_board_id item)) db = true ->
  (forall r, r ∈ items db -> row_id r <> item_id item) ->
  postItem now item db
  = (Success, mkDb (boards db) (items db ++ [postedRow now item]) (todos db)).
Proof.
  intros Hb Hfresh. unfold postItem, insertItem. simpl.
  assert (E : existsb (fun r' => bool_decide (row_id r' = item_id item)) (items db)
              = false).
  { apply existsb_false_iff. intros r Hr. apply bool_decide_eq_false_2.
    now apply Hfresh. }
  rewrite E, Hb. reflexivity.
Qed.

Lemma getBoard_items_after_post now now' item db :
  let b := default "default"%string (item_board_id item) in
  hasBoard b db = true ->
  (forall r, r ∈ items db -> row_id r <> item_id item) ->
  exists db',
    postItem now item db = (Success, db') /\
    itemsOf (fst (getBoard now' b db'))
      ≡ₚ itemOfRow (postedRow now item) :: itemsOf (fst (getBoard now' b db)) /\
    todosOf (fst (getBoard now' b db')) = todosOf (fst (getBoard now' b db)).
Proof.
  intros b Hb Hfresh. eexists. split; [now apply postItem_ok |].
  destruct (getBoard_shape now' b db) as [info ->].
  destruct (getBoard_shape now' b
              (mkDb (boards db) (items db ++ [postedRow now item]) (todos db)))
    as [info' ->].
  simpl. split; [| reflexivity].
  rewrite List.filter_app. simpl. fold b.
  rewrite bool_decide_eq_true_2 by reflexivity.
  rewrite !merge_sort_Permutation.
  rewrite map_app. simpl. now rewrite Permutation_app_comm.
Qed.

(** X9: An item created with POST /api/items, its id not yet used and its
    board (default when none is sent) existing, is answered with success and
    is returned by the next GET of that board next to the items returned
    before: id, type, position, size and content as sent, style as sent (the
    empty object when none or a falsy one was sent), z_index as sent (0 when
    absent), both timestamps the time of the request. The todos returned are
    the same as before. *)
Theorem postItem_then_getBoard (now now' : Z) (item : Item) (db : Db) :
  let b := default "default"%string (item_board_id item) in
  hasBoard b db = true ->
  (forall r, r ∈ items db -> row_id r <> item_id item) ->
  exists db' got,
    postItem now item db = (Success, db') /\
    itemPosted now item got /\
    itemsOf (fst (getBoard now' b db'))
      ≡ₚ got :: itemsOf (fst (getBoard now' b db)) /\
    todosOf (fst (getBoard now' b db')) = todosOf (fst (getBoard now' b db)).
Proof.
  intros b Hb Hfresh.
  destruct (getBoard_items_after_post now now' item db Hb Hfresh) as (db' & H1 & H2 & H3).
  exists db', (itemOfRow (postedRow now item)).
  split; [exact H1 |]. split; [apply itemPosted_row |]. split; assumption.
Qed.

Lemma postItem_then_getBoard_witness :
  exists db' got,
    postItem 2000 goalItem freshDb = (Success, db') /\
    itemPosted 2000 goalItem got /\
    itemsOf (fst (getBoard 3000 "default" db'))
      ≡ₚ got :: itemsOf (fst (getBoard 3000 "default" freshDb)) /\
    todosOf (fst (getBoard 3000 "default" db'))
    = todosOf (fst (getBoard 3000 "default" freshDb)).
Proof.
  apply (postItem_then_getBoard 2000 3000 goalItem freshDb).
  - reflexivity.
  - intros r Hr. inversion Hr.
Defined.

(** X10: POST /api/items is answered 500 and leaves the store as it was when
    the id is already used by an item of any board, or when the board it
    names (default when none is sent) does not exist. *)
Theorem postItem_rejected (now : Z) (item : Item) (db : Db) :
  (exists r, r ∈ items db /\ row_id r = item_id item) \/
  hasBoard (default "default"%string (item_board_id item)) db = false ->
  postItem now item db = (Failure 500, db).
Proof.
  intros H. unfold postItem, insertItem. simpl.
  destruct (existsb _ (items db)) eqn:E; [reflexivity |].
  destruct H as [(r & Hr & Hid) | Hb].
  - rewrite existsb_false_iff in E. specialize (E r Hr).
    apply bool_decide_eq_false_1 in E. contradiction.
  - now rewrite Hb.
Qed.

Lemma postItem_rejected_witness :
  postItem 3000 goalItem (snd (postItem 2000 goalItem freshDb))
  = (Failure 500, snd (postItem 2000 goalItem freshDb)).
Proof.
  apply postItem_rejected. left. exists (postedRow 2000 goalItem).
  split; [| reflexivity]. apply list_elem_of_In. left. reflexivity.
Defined.

Lemma filter_Permutation_bool {A} (p : A -> bool) (l l' : list A) :
  l ≡ₚ l' -> List.filter p l ≡ₚ List.filter p l'.
Proof.
  induction 1 as [| a l l' H IH | a b l | l l' l'' H1 IH1 H2 IH2]; simpl.
  - reflexivity.
  - destruct (p a); [now constructor | exact IH].
  - destruct (p a), (p b); try reflexivity. apply perm_swap.
  - now transitivity (List.filter p l').
Qed.

(** X11: After DELETE /api/items/:id the GET of any board returns the items
    it returned before except those with that id, so no returned item
    carries the id; the todos returned are the same as before. *)
Theorem deleteItem_then_getBoard (now : Z) (id board : string) (db : Db) :
  let db' := snd (deleteItem id db) in
  itemsOf (fst (getBoard now board db'))
    ≡ₚ List.filter (fun i => negb (bool_decide (item_id i = id)))
         (itemsOf (fst (getBoard now board db))) /\
  (forall i, i ∈ itemsOf (fst (getBoard now board db')) -> item_id i <> id) /\
  todosOf (fst (getBoard now board db')) = todosOf (fst (getBoard now board db)).
Proof.
  intros db'.
  destruct (getBoard_shape now board db) as [info ->].
  destruct (getBoard_shape now board db') as [info' ->].
  unfold db', deleteItem; simpl.
  set (mine := fun r => bool_decide (row_board_id r = board)).
  set (other := fun r => negb (bool_decide (row_id r = id))).
  assert (Hperm :
    map itemOfRow (merge_sort byZIndex (List.filter mine (List.filter other (items db))))
    ≡ₚ List.filter (fun i => negb (bool_decide (item_id i = id)))
         (map itemOfRow (merge_sort byZIndex (List.filter mine (items db))))).
  { rewrite merge_sort_Permutation.
    transitivity (List.filter (fun i => negb (bool_decide (item_id i = id)))
                    (map itemOfRow (List.filter mine (items db)))).
    - induction (items db) as [| r l IH]; simpl; [reflexivity |].
      unfold other at 1. destruct (bool_decide (row_id r = id)) eqn:E; simpl.
      + destruct (mine r); simpl; [| exact IH]. rewrite E. simpl. exact IH.
      + destruct (mine r); simpl; [| exact IH]. rewrite E. simpl. now rewrite IH.
    - apply filter_Permutation_bool. apply Permutation_map. symmetry.
      apply merge_sort_Permutation. }
  split; [exact Hperm |]. split; [| reflexivity].
  intros i Hin. rewrite Hperm in Hin.
  apply list_elem_of_In, List.filter_In in Hin as [_ Hin].
  apply negb_true_iff in Hin. now apply bool_decide_eq_false_1 in Hin.
Qed.

(** When the insertion loops succeed, and what they leave. *)
Lemma insertItems_spec now board (l : list Item) : forall db db',
  insertItems now board l db = Some db' <->
  db' = mkDb (boards db) (items db ++ map (syncItemRow now board) l) (todos db) /\
  NoDup (map item_id l) /\
  (forall r, r ∈ items db -> row_id r ∉ map item_id l) /\
  (l <> [] -> hasBoard board db = true).
Proof.
  induction l as [| i l IH]; intros db db'; simpl.
  - rewrite app_nil_r. split.
    + intros [= <-]. split; [now destruct db |]. split; [constructor |].
      split; [intros r _ Hin; inversion Hin | congruence].
    + intros (-> & _). now destruct db.
  - unfold insertItem. simpl.
    destruct (existsb _ (items db)) eqn:E.
    { split; [discriminate |]. intros (_ & _ & Hfresh & _). exfalso.
      apply existsb_exists in E as (r & Hr & Hid).
      apply bool_decide_eq_true_1 in Hid.
      apply (Hfresh r); [now apply list_elem_of_In |]. rewrite Hid. left. }
    destruct (hasBoard board db) eqn:Hb; simpl.
    2:{ split; [discriminate |]. intros (_ & _ & _ & H).
        discriminate H. congruence. }
    rewrite IH. simpl. rewrite <- app_assoc. simpl.
    rewrite existsb_false_iff in E.
    split.
    + intros (-> & Hnd & Hfresh & _). split; [reflexivity |].
      split; [| split; [| reflexivity]].
      * constructor; [| exact Hnd].
        apply (Hfresh (syncItemRow now board i)). apply elem_of_app. right. left.
      * intros r Hr Hin. apply elem_of_cons in Hin as [Hin | Hin].
        -- specialize (E r Hr). apply bool_decide_eq_false_1 in E. congruence.
        -- apply (Hfresh r); [apply elem_of_app; now left | exact Hin].
    + intros (-> & Hnd & Hfresh & _). apply NoDup_cons in Hnd as [Hi Hnd].
      split; [reflexivity |]. split; [exact Hnd |]. split; [| intros _; exact Hb].
      intros r Hr Hin. apply elem_of_app in Hr as [Hr | Hr].
      * apply (Hfresh r Hr). now right.
      * apply list_elem_of_singleton in Hr as ->. simpl in Hin. contradiction.
Qed.

Lemma insertTodos_spec now board (l : list Todo) : forall db db',
  insertTodos now board l db = Some db' <->
  db' = mkDb (boards db) (items db) (todos db ++ map (syncTodoRow now board) l) /\
  NoDup (map todo_id l) /\
  (forall t, t ∈ todos db -> trow_id t ∉ map todo_id l) /\
  (l <> [] -> hasBoard board db = true).
Proof.
  induction l as [| i l IH]; intros db db'; simpl.
  - rewrite app_nil_r. split.
    + intros [= <-]. split; [now destruct db |]. split; [constructor |].
      split; [intros r _ Hin; inversion Hin | congruence].
    + intros (-> & _). now destruct db.
  - unfold insertTodo. simpl.
    destruct (existsb _ (todos db)) eqn:E.
    { split; [discriminate |]. intros (_ & _ & Hfresh & _). exfalso.
      apply existsb_exists in E as (r & Hr & Hid).
      apply bool_decide_eq_true_1 in Hid.
      apply (Hfresh r); [now apply list_elem_of_In |]. rewrite Hid. left. }
    destruct (hasBoard board db) eqn:Hb; simpl.
    2:{ split; [discriminate |]. intros (_ & _ & _ & H).
        discriminate H. congruence. }
    rewrite IH. simpl. rewrite <- app_assoc. simpl.
    rewrite existsb_false_iff in E.
    split.
    + intros (-> & Hnd & Hfresh & _). split; [reflexivity |].
      split; [| split; [| reflexivity]].
      * constructor; [| exact Hnd].
        apply (Hfresh (syncTodoRow now board i)). apply elem_of_app. right. left.
      * intros r Hr Hin. apply elem_of_cons in Hin as [Hin | Hin].
        -- specialize (E r Hr). apply bool_decide_eq_false_1 in E. congruence.
        -- apply (Hfresh r); [apply elem_of_app; now left | exact Hin].
    + intros (-> & Hnd & Hfresh & _). apply NoDup_cons in Hnd as [Hi Hnd].
      split; [reflexivity |]. split; [exact Hnd |]. split; [| intros _; exact Hb].
      intros r Hr Hin. apply elem_of_app in Hr as [Hr | Hr].
      * apply (Hfresh r Hr). now right.
      * apply list_elem_of_singleton in Hr as ->. simpl in Hin. contradiction.
Qed.

Lemma elem_of_filter_other {A} (f : A -> string) (b : string) (l : list A) (a : A) :
  a ∈ List.filter (fun r => negb (bool_decide (f r = b))) l <-> a ∈ l /\ f a <> b.
Proof.
  rewrite !list_elem_of_In, List.filter_In, negb_true_iff, bool_decide_eq_false.
  reflexivity.
Qed.

Lemma hasBoard_sync_viewport now board vp db :
  hasBoard board (match vp with
                  | Some (x, y, z) => updateViewport now board x y z db
                  | None => db
                  end) = hasBoard board db.
Proof.
  destruct vp as [[[x y] z] |]; [apply hasBoard_updateViewport | reflexivity].
Qed.

Lemma sync_cases now body db :
  (syncAccepts body db /\ sync now body db = (Synced now, syncedDb now body db)) \/
  (~ syncAccepts body db /\ sync now body db = (Failure 500, db)).
Proof.
  unfold sync, syncAccepts, syncedDb.
  set (board := default "default"%string (sync_board_id body)).
  set (sent := default [] (sync_items body)).
  set (sentTodos := default [] (sync_todos body)).
  set (db1 := match sync_viewport body with
              | Some (x, y, z) => updateViewport now board x y z db
              | None => db
              end).
  assert (Hi : items db1 = items db)
    by (subst db1; destruct (sync_viewport body) as [[[x y] z] |]; reflexivity).
  assert (Ht : todos db1 = todos db)
    by (subst db1; destruct (sync_viewport body) as [[[x y] z] |]; reflexivity).
  assert (Hb : hasBoard board db1 = hasBoard board db)
    by apply hasBoard_sync_viewport.
  destruct (insertItems now board sent (deleteBoardItems board db1)) as [db3 |] eqn:E3;
    simpl.
  - apply insertItems_spec in E3 as (-> & Hnd & Hfresh & Hboard). simpl in *.
    destruct (insertTodos now board sentTodos _) as [db' |] eqn:E'.
    + apply insertTodos_spec in E' as (-> & Hndt & Hfresht & Hboardt). simpl in *.
      left. rewrite Hi, Ht in *. split; [| reflexivity].
      split; [exact Hnd |]. split; [exact Hndt |].
      split; [| split].
      * intros r Hr Hne. apply Hfresh. now apply elem_of_filter_other.
      * intros t Hr Hne. apply Hfresht.
        now apply (elem_of_filter_other trow_board_id).
      * rewrite <- Hb. intros [H | H]; [now apply Hboard | now apply Hboardt].
    + right. split; [| reflexivity]. intros (_ & Hndt & _ & Hfresht & Hboardt).
      assert (Some (mkDb (boards db1)
                (List.filter (fun r => negb (bool_decide (row_board_id r = board)))
                   (items db1) ++ map (syncItemRow now board) sent)
                (List.filter (fun t => negb (bool_decide (trow_board_id t = board)))
                   (todos db1) ++ map (syncTodoRow now board) sentTodos))
              = @None Db) as Habs; [| discriminate Habs].
      rewrite <- E'. symmetry. apply insertTodos_spec. simpl.
      split; [reflexivity |]. split; [exact Hndt |]. split.
      * rewrite Ht. intros t Hin.
        apply (elem_of_filter_other trow_board_id) in Hin as [Hin Hne].
        now apply Hfresht.
      * intros H. change (hasBoard board db1 = true).
        rewrite Hb. apply Hboardt. now right.
  - right. split; [| reflexivity]. intros (Hnd & _ & Hfresh & _ & Hboard).
    assert (Some (mkDb (boards db1)
              (List.filter (fun r => negb (bool_decide (row_board_id r = board)))
                 (items db1) ++ map (syncItemRow now board) sent)
              (todos db1))
            = @None Db) as Habs; [| discriminate Habs].
    rewrite <- E3. symmetry. apply insertItems_spec. simpl.
    split; [reflexivity |]. split; [exact Hnd |]. split.
    + rewrite Hi. intros r Hin. apply elem_of_filter_other in Hin as [Hin Hne].
      now apply Hfresh.
    + intros H. change (hasBoard board db1 = true).
      rewrite Hb. apply Hboard. now left.
Qed.

(** X12: For a sync body whose items and todos carry their mandatory fields,
    the request is answered with success exactly when the item ids sent are
    pairwise distinct, the todo ids sent are pairwise distinct, none of them
    is the id of a row of another board, and the board exists as soon as one
    item or todo is sent; in every other case it is answered 500 and the
    store is left as it was before the request. *)
Theorem sync_succeeds_iff (now : Z) (body : SyncBody) (db : Db) :
  let board := default "default"%string (sync_board_id body) in
  let sent := default [] (sync_items body) in
  let sentTodos := default [] (sync_todos body) in
  (fst (sync now body db) = Synced now <->
     NoDup (map item_id sent) /\
     NoDup (map todo_id sentTodos) /\
     (forall r, r ∈ items db -> row_board_id r <> board ->
                row_id r ∉ map item_id sent) /\
     (forall t, t ∈ todos db -> trow_board_id t <> board ->
                trow_id t ∉ map todo_id sentTodos) /\
     (sent <> [] \/ sentTodos <> [] -> hasBoard board db = true)) /\
  (fst (sync now body db) = Synced now \/ sync now body db = (Failure 500, db)).
Proof.
  intros board sent sentTodos.
  destruct (sync_cases now body db) as [[Hacc ->] | [Hrej ->]]; simpl.
  - split; [| now left]. split; [intros _; exact Hacc | reflexivity].
  - split; [| now right]. split; [discriminate | intros H; exfalso; now apply Hrej].
Qed.

Lemma filter_other_synced {A B} (f : A -> string) (g : B -> A) (b : string)
    (old : list A) (new : list B) :
  (forall x, f (g x) = b) ->
  List.filter (fun a => negb (bool_decide (f a = b)))
    (List.filter (fun a => negb (bool_decide (f a = b))) old ++ map g new)
  = List.filter (fun a => negb (bool_decide (f a = b))) old.
Proof.
  intros Hg. rewrite List.filter_app.
  rewrite (filter_none _ (map g new)).
  - rewrite app_nil_r. apply filter_all.
    intros a Ha. apply list_elem_of_In, List.filter_In in Ha as [_ Ha]. exact Ha.
  - intros a Ha. apply list_elem_of_In, in_map_iff in Ha as (x & <- & _).
    rewrite Hg. now rewrite bool_decide_eq_true_2.
Qed.

Lemma filter_board_synced {A B} (f : A -> string) (g : B -> A) (b : string)
    (old : list A) (new : list B) :
  (forall x, f (g x) = b) ->
  List.filter (fun a => bool_decide (f a = b))
    (List.filter (fun a => negb (bool_decide (f a = b))) old ++ map g new)
  = map g new.
Proof.
  intros Hg. apply (filter_kept_and_new (fun a => bool_decide (f a = b))).
  intros x. now apply bool_decide_eq_true_2.
Qed.

(** X13: A sync that succeeds replaces the items and todos of its board by
    the rows made from the ones sent, in the order sent, leaves every row of
    any other board as it was, and neither creates nor removes a board. *)
Theorem sync_replaces_only_its_board (now : Z) (body : SyncBody) (db : Db) :
  fst (sync now body db) = Synced now ->
  let board := default "default"%string (sync_board_id body) in
  let db' := snd (sync now body db) in
  List.filter (fun r => bool_decide (row_board_id r = board)) (items db')
    = map (syncItemRow now board) (default [] (sync_items body)) /\
  List.filter (fun t => bool_decide (trow_board_id t = board)) (todos db')
    = map (syncTodoRow now board) (default [] (sync_todos body)) /\
  List.filter (fun r => negb (bool_decide (row_board_id r = board))) (items db')
    = List.filter (fun r => negb (bool_decide (row_board_id r = board))) (items db) /\
  List.filter (fun t => negb (bool_decide (trow_board_id t = board))) (todos db')
    = List.filter (fun t => negb (bool_decide (trow_board_id t = board))) (todos db) /\
  map board_id (boards db') = map board_id (boards db).
Proof.
  intros Hok board db'. subst db'.
  destruct (sync_cases now body db) as [[_ E] | [_ E]]; rewrite E in *;
    [| discriminate Hok].
  simpl. fold board.
  split; [apply (filter_board_synced row_board_id); reflexivity |].
  split; [apply (filter_board_synced trow_board_id); reflexivity |].
  split; [apply (filter_other_synced row_board_id); reflexivity |].
  split; [apply (filter_other_synced trow_board_id); reflexivity |].
  destruct (sync_viewport body) as [[[x y] z] |]; [| reflexivity].
  simpl. rewrite map_map. apply map_ext. intros b.
  destruct (bool_decide (board_id b = board)); reflexivity.
Qed.

Lemma sync_replaces_only_its_board_witness :
  List.filter (fun r => bool_decide (row_board_id r = "plans"%string))
    (items (snd (sync 2000 (mkSyncBody (Some "plans"%string) (Some [goalItem])
                              (Some [goalTodo]) None)
                   (snd (postItem 1000 upperNote (withNewBoard 0 "plans" freshDb))))))
  = [syncItemRow 2000 "plans" goalItem] /\
  List.filter (fun r => negb (bool_decide (row_board_id r = "plans"%string)))
    (items (snd (sync 2000 (mkSyncBody (Some "plans"%string) (Some [goalItem])
                              (Some [goalTodo]) None)
                   (snd (postItem 1000 upperNote (withNewBoard 0 "plans" freshDb))))))
  = [postedRow 1000 upperNote].
Proof.
  destruct (sync_replaces_only_its_board 2000
              (mkSyncBody (Some "plans"%string) (Some [goalItem]) (Some [goalTodo]) None)
              (snd (postItem 1000 upperNote (withNewBoard 0 "plans" freshDb))))
    as (Hmine & _ & Hother & _); [reflexivity |].
  split; [exact Hmine | exact Hother].
Defined.

Lemma syncAccepts_syncedDb now body db :
  syncAccepts body db -> syncAccepts body (syncedDb now body db).
Proof.
  unfold syncAccepts, syncedDb. simpl.
  set (board := default "default"%string (sync_board_id body)).
  intros (Hnd & Hndt & Hfresh & Hfresht & Hboard).
  split; [exact Hnd |]. split; [exact Hndt |]. split; [| split].
  - intros r Hr Hne. apply elem_of_app in Hr as [Hr | Hr].
    + apply elem_of_filter_other in Hr as [Hr _]. now apply Hfresh.
    + apply list_elem_of_In, in_map_iff in Hr as (x & <- & _). now destruct Hne.
  - intros t Hr Hne. apply elem_of_app in Hr as [Hr | Hr].
    + apply (elem_of_filter_other trow_board_id) in Hr as [Hr _]. now apply Hfresht.
    + apply list_elem_of_In, in_map_iff in Hr as (x & <- & _). now destruct Hne.
  - intros H. specialize (Hboard H).
    rewrite <- (hasBoard_sync_viewport now board (sync_viewport body) db) in Hboard.
    exact Hboard.
Qed.

Lemma syncedDb_twice now now' body db :
  syncedDb now' body (syncedDb now body db) = syncedDb now' body db.
Proof.
  unfold syncedDb. simpl.
  set (board := default "default"%string (sync_board_id body)).
  rewrite (filter_other_synced row_board_id) by reflexivity.
  rewrite (filter_other_synced trow_board_id) by reflexivity.
  f_equal.
  destruct (sync_viewport body) as [[[x y] z] |]; [| reflexivity].
  simpl. rewrite map_map. apply map_ext. intros b.
  destruct (bool_decide (board_id b = board)) eqn:E; simpl; rewrite E; reflexivity.
Qed.

(** X14: Of two syncs with the same body only the later one counts: sending
    the body again at a later time gives the answer and the store that this
    second request alone would have given on the original store. *)
Theorem sync_again_last_wins (now now' : Z) (body : SyncBody) (db : Db) :
  sync now' body (snd (sync now body db)) = sync now' body db.
Proof.
  destruct (sync_cases now body db) as [[Hacc ->] | [_ ->]]; [| reflexivity].
  simpl.
  destruct (sync_cases now' body (syncedDb now body db)) as [[_ ->] | [Hrej _]].
  - destruct (sync_cases now' body db) as [[_ ->] | [Hrej _]].
    + now rewrite syncedDb_twice.
    + now destruct Hrej.
  - destruct Hrej. now apply syncAccepts_syncedDb.
Qed.

Lemma todoOfRow_applyTodoUpdate now u r :
  todoOfRow (applyTodoUpdate now u r) = todoUpdated now u (todoOfRow r).
Proof.
  unfold todoOfRow, applyTodoUpdate, todoUpdated; cbn [trow_id trow_board_id
    trow_text trow_completed trow_priority trow_created_at trow_updated_at
    todo_id todo_board_id todo_text todo_completed todo_priority
    todo_created_at todo_updated_at].
  destruct (upd_completed u) as [v |], (upd_priority u) as [p |];
    try reflexivity; destruct (truthy (Some v)); reflexivity.
Qed.

(** X15: After PUT /api/todos/:id the GET of any board returns the todos it
    returned before, where each todo with that id has the text and priority
    sent (kept when absent), completed equal to the boolean the sent value
    coerces to (kept when absent) and updated_at equal to the time of the
    request; id, board and created_at are kept, the other todos and all
    items are returned as before. *)
Theorem putTodo_then_getBoard (now now' : Z) (id board : string)
    (u : TodoUpdate) (db : Db) :
  let db' := snd (putTodo now id u db) in
  todosOf (fst (getBoard now' board db'))
    ≡ₚ map (fun t => if bool_decide (todo_id t = id) then todoUpdated now u t else t)
         (todosOf (fst (getBoard now' board db))) /\
  itemsOf (fst (getBoard now' board db')) = itemsOf (fst (getBoard now' board db)).
Proof.
  intros db'.
  destruct (getBoard_shape now' board db) as [info ->].
  destruct (getBoard_shape now' board db') as [info' ->].
  unfold db', putTodo; simpl. split; [| reflexivity].
  rewrite !merge_sort_Permutation.
  induction (todos db) as [| r l IH]; simpl; [reflexivity |].
  destruct (bool_decide (trow_id r = id)) eqn:E; simpl.
  - destruct (bool_decide (trow_board_id r = board)); simpl; [| exact IH].
    rewrite E, todoOfRow_applyTodoUpdate. now rewrite IH.
  - destruct (bool_decide (trow_board_id r = board)); simpl; [| exact IH].
    rewrite E. now rewrite IH.
Qed.

(** X16: A todo created with POST /api/todos, its id not yet used and its
    board (default when none is sent) existing, is answered with success and
    is returned by the next GET of that board next to the todos returned
    before: id and text as sent, not completed whatever flag was sent,
    priority as sent (medium when absent), both timestamps the time of the
    request. The items returned are the same as before. *)
Theorem postTodo_then_getBoard (now now' : Z) (todo : Todo) (db : Db) :
  let b := default "default"%string (todo_board_id todo) in
  hasBoard b db = true ->
  (forall t, t ∈ todos db -> trow_id t <> todo_id todo) ->
  exists db',
    postTodo now todo db = (Success, db') /\
    todosOf (fst (getBoard now' b db'))
      ≡ₚ todoPosted now todo :: todosOf (fst (getBoard now' b db)) /\
    itemsOf (fst (getBoard now' b db')) = itemsOf (fst (getBoard now' b db)).
Proof.
  intros b Hb Hfresh.
  assert (E : existsb (fun t' => bool_decide (trow_id t' = todo_id todo)) (todos db)
              = false).
  { apply existsb_false_iff. intros r Hr. apply bool_decide_eq_false_2.
    now apply Hfresh. }
  unfold postTodo, insertTodo. simpl. fold b. rewrite E, Hb.
  eexists. split; [reflexivity |].
  destruct (getBoard_shape now' b db) as [info ->].
  match goal with
  | |- context [getBoard now' b ?d] =>
      destruct (getBoard_shape now' b d) as [info' ->]
  end.
  simpl. split; [| reflexivity].
  rewrite List.filter_app. simpl.
  rewrite bool_decide_eq_true_2 by reflexivity.
  rewrite !merge_sort_Permutation.
  rewrite map_app. simpl. now rewrite Permutation_app_comm.
Qed.

Lemma postTodo_then_getBoard_witness :
  exists db',
    postTodo 2000 goalTodo freshDb = (Success, db') /\
    todosOf (fst (getBoard 3000 "default" db'))
      ≡ₚ todoPosted 2000 goalTodo :: todosOf (fst (getBoard 3000 "default" freshDb)) /\
    itemsOf (fst (getBoard 3000 "default" db'))
    = itemsOf (fst (getBoard 3000 "default" freshDb)).
Proof.
  apply (postTodo_then_getBoard 2000 3000 goalTodo freshDb).
  - reflexivity.
  - intros t Ht. inversion Ht.
Defined.

(** X17: After DELETE /api/todos/:id the GET of any board returns the todos
    it returned before except those with that id, so no returned todo
    carries the id; the items returned are the same as before. *)
Theorem deleteTodo_then_getBoard (now : Z) (id board : string) (db : Db) :
  let db' := snd (deleteTodo id db) in
  todosOf (fst (getBoard now board db'))
    ≡ₚ List.filter (fun t => negb (bool_decide (todo_id t = id)))
         (todosOf (fst (getBoard now board db))) /\
  (forall t, t ∈ todosOf (fst (getBoard now board db')) -> todo_id t <> id) /\
  itemsOf (fst (getBoard now board db')) = itemsOf (fst (getBoard now board db)).
Proof.
  intros db'.
  destruct (getBoard_shape now board db) as [info ->].
  destruct (getBoard_shape now board db') as [info' ->].
  unfold db', deleteTodo; simpl.
  set (mine := fun r => bool_decide (trow_board_id r = board)).
  set (other := fun r => negb (bool_decide (trow_id r = id))).
  assert (Hperm :
    map todoOfRow (merge_sort byCreatedDesc
                     (List.filter mine (List.filter other (todos db))))
    ≡ₚ List.filter (fun t => negb (bool_decide (todo_id t = id)))
         (map todoOfRow (merge_sort byCreatedDesc (List.filter mine (todos db))))).
  { rewrite merge_sort_Permutation.
    transitivity (List.filter (fun t => negb (bool_decide (todo_id t = id)))
                    (map todoOfRow (List.filter mine (todos db)))).
    - induction (todos db) as [| r l IH]; simpl; [reflexivity |].
      unfold other at 1. destruct (bool_decide (trow_id r = id)) eqn:E; simpl.
      + destruct (mine r); simpl; [| exact IH]. rewrite E. simpl. exact IH.
      + destruct (mine r); simpl; [| exact IH]. rewrite E. simpl. now rewrite IH.
    - apply filter_Permutation_bool. apply Permutation_map. symmetry.
      apply merge_sort_Permutation. }
  split; [exact Hperm |]. split; [| reflexivity].
  intros t Hin. rewrite Hperm in Hin.
  apply list_elem_of_In, List.filter_In in Hin as [_ Hin].
  apply negb_true_iff in Hin. now apply bool_decide_eq_false_1 in Hin.
Qed.

End StoreProperties.

(** ** Client: zoom range and navigation loops *)

Section NavigationProperties.
Import Canvas.
Local Open Scope Q_scope.

Lemma zoom_navigationLoop (env : Env) (s : App) :
  zoom (navigationLoop env s) = zoom s.
Proof.
  unfold navigationLoop.
  destruct (negb (isNavigating s) || bool_decide (keysPressed s = ∅));
    [reflexivity |].
  cbv zeta. unfold has.
  repeat match goal with
         | |- context [bool_decide (?k ∈ ?K)] => destruct (bool_decide (k ∈ K))
         end; reflexivity.
Qed.

Lemma zoom_joystickNavigationLoop (env : Env) (s : App) :
  zoom (joystickNavigationLoop env s) = zoom s.
Proof.
  unfold joystickNavigationLoop.
  destruct (negb (joystickNavigating s)); [reflexivity |].
  cbv zeta. destruct (Qabs_gt _ _ || Qabs_gt _ _); reflexivity.
Qed.

Lemma zoom_callbacks (env : Env) (q : list Callback) : forall s,
  zoom (fold_left (runCallback env) q s) = zoom s.
Proof.
  induction q as [| cb q IH]; intros s; simpl; [reflexivity |].
  rewrite IH. destruct cb; [apply zoom_navigationLoop | apply zoom_joystickNavigationLoop].
Qed.

Lemma step_zoomInRange (env : Env) (s : App) (op : ViewOp) :
  zoomInRange s -> zoomInRange (step env s op).
Proof.
  unfold zoomInRange, minZoom, maxZoom. intros [Hlo Hhi].
  destruct op; simpl.
  - split; assumption.
  - destruct (isPanning s); simpl; split; assumption.
  - destruct (isPanning s); simpl; split; assumption.
  - unfold onWheel. cbv zeta.
    destruct (negb (Qeq_bool (wheelZoom deltaY s) (zoom s))); simpl;
      [apply (wheelZoom_range deltaY s) | split; assumption].
  - unfold maxZoom. minmax_cases; lra.
  - unfold minZoom.
    assert (Hd : zoom s / 1.2 * 1.2 == zoom s) by (field; discriminate).
    set (d := zoom s / 1.2) in *. minmax_cases; lra.
  - lra.
  - split; assumption.
  - unfold onTouchStart. destruct (touches e) as [| t [| t' [| t'' l]]]; simpl;
      try (split; assumption).
    destruct (negb (onItem e)); simpl; split; assumption.
  - unfold onTouchMove. destruct (touches e) as [| t [| t' [| t'' l]]]; simpl;
      try (split; assumption).
    + destruct (isPanning s); simpl; split; assumption.
    + destruct (truthyQ (pinchStart s)); simpl; [| split; assumption].
      unfold minZoom, maxZoom. minmax_cases; lra.
  - unfold onTouchEnd. destruct (touches e); simpl; split; assumption.
  - unfold onKeyDown. cbv zeta.
    set (s0 := if shiftKey then set_isShiftPressed true s else s).
    assert (Hz0 : zoom s0 = zoom s) by (subst s0; destruct shiftKey; reflexivity).
    destruct (negb (has navKey s0)); [| rewrite Hz0; split; assumption].
    unfold startNavigation.
    destruct (isNavigating (set_keysPressed _ s0));
      [simpl; rewrite Hz0; split; assumption |].
    rewrite zoom_navigationLoop. simpl. rewrite Hz0. split; assumption.
  - unfold onKeyUp. cbv zeta. simpl.
    destruct (bool_decide _); simpl; split; assumption.
  - split; assumption.
  - unfold onJoystickStart, startJoystickNavigation.
    destruct (joystickNavigating (set_joystick _ _ _ s));
      [simpl; split; assumption |].
    rewrite zoom_joystickNavigationLoop. simpl. split; assumption.
  - destruct (joystickActive s); simpl; split; assumption.
  - destruct (joystickActive s); simpl; split; assumption.
  - unfold animationFrame. rewrite zoom_callbacks. split; assumption.
Qed.

(** X18: Whatever the user does (pan, wheel, zoom buttons, reset, minimap
    click, touch and pinch gestures, navigation keys, joystick, display
    frames), a zoom factor that lies between minZoom (0.25) and maxZoom (2)
    stays between them. *)
Theorem zoom_stays_in_range (env : Env) (ops : list ViewOp) (s : App) :
  zoomInRange s -> zoomInRange (run env ops s).
Proof.
  revert s. unfold run.
  induction ops as [| op ops IH]; intros s H; simpl; [exact H |].
  apply IH. now apply step_zoomInRange.
Qed.

Lemma zoom_stays_in_range_witness :
  zoomInRange
    (run desktopEnv (pinchOut ++ [OpZoomOut; OpZoomOut; OpWheel 10 10 1; OpResetView;
                                  OpZoomIn; OpZoomIn; OpZoomIn; OpZoomIn])
       (idleApp 4000 0 1)).
Proof.
  apply (zoom_stays_in_range desktopEnv). unfold zoomInRange, minZoom, maxZoom.
  simpl. lra.
Defined.

Lemma callbacks_idle (env : Env) (q : list Callback) : forall s,
  keysPressed s = ∅ -> joystickNavigating s = false ->
  let t := fold_left (runCallback env) q s in
  frameQueue t = frameQueue s /\ viewport_x t = viewport_x s /\
  viewport_y t = viewport_y s /\ zoom t = zoom s /\
  keysPressed t = ∅ /\ joystickNavigating t = false.
Proof.
  induction q as [| cb q IH]; intros s Hk Hj; simpl; [repeat split; assumption |].
  assert (E : runCallback env s cb = s \/ runCallback env s cb = set_isNavigating false s).
  { destruct cb; simpl.
    - right. now destruct (navigationLoop_stops env s Hk) as [-> _].
    - left. unfold joystickNavigationLoop. now rewrite Hj. }
  destruct E as [-> | ->]; [now apply IH |].
  specialize (IH (set_isNavigating false s) Hk Hj). exact IH.
Qed.

Lemma animationFrame_idle (env : Env) (s : App) :
  keysPressed s = ∅ -> joystickNavigating s = false ->
  frameQueue (animationFrame env s) = [] /\
  viewport_x (animationFrame env s) = viewport_x s /\
  viewport_y (animationFrame env s) = viewport_y s /\
  zoom (animationFrame env s) = zoom s /\
  keysPressed (animationFrame env s) = ∅ /\
  joystickNavigating (animationFrame env s) = false.
Proof.
  intros Hk Hj.
  exact (callbacks_idle env (frameQueue s) (set_frameQueue [] s) Hk Hj).
Qed.

(** X19: Once no navigation key is held and the joystick loop is switched
    off, the next display frame runs the queued loop callbacks for the last
    time: none of them queues itself again, and neither that frame nor any
    later one changes the viewport origin or the zoom. *)
Theorem released_input_stops_motion (env : Env) (n : nat) (s : App) :
  keysPressed s = ∅ -> joystickNavigating s = false ->
  let s' := run env (repeat OpFrame (S n)) s in
  frameQueue s' = [] /\
  viewport_x s' = viewport_x s /\ viewport_y s' = viewport_y s /\
  zoom s' = zoom s.
Proof.
  revert s. induction n as [| n IH]; intros s Hk Hj;
    destruct (animationFrame_idle env s Hk Hj) as (Hq & Hx & Hy & Hz & Hk' & Hj').
  - change (run env (repeat OpFrame 1) s) with (animationFrame env s).
    cbv zeta. repeat split; assumption.
  - change (run env (repeat OpFrame (S (S n))) s)
      with (run env (repeat OpFrame (S n)) (animationFrame env s)).
    destruct (IH _ Hk' Hj') as (Hq2 & Hx2 & Hy2 & Hz2).
    cbv zeta in *. rewrite Hq2, Hx2, Hy2, Hz2. repeat split; assumption.
Qed.

Lemma released_input_stops_motion_witness :
  viewport_x
    (run desktopEnv (repeat OpFrame 3)
       (run desktopEnv [OpKeyDown "right" false; OpFrame; OpKeyUp "right"]
          (idleApp 1000 1000 1)))
  = viewport_x
      (run desktopEnv [OpKeyDown "right" false; OpFrame; OpKeyUp "right"]
         (idleApp 1000 1000 1)).
Proof.
  destruct (released_input_stops_motion desktopEnv 2
              (run desktopEnv [OpKeyDown "right" false; OpFrame; OpKeyUp "right"]
                 (idleApp 1000 1000 1))) as (_ & Hx & _);
    [vm_compute; reflexivity | vm_compute; reflexivity | exact Hx].
Defined.















End NavigationProperties.

(** ** Client: creating and deleting an item *)

Section ItemListProperties.
Import Items.
Local Open Scope Q_scope.

(** Deleting the id of the item appended last, no other item carrying it. *)
Lemma deleteItem_appended (id : string) (item : Item) (s : State) (l : list Item) :
  item_id item = id -> id ∉ map item_id l ->
  items s = l ++ [item] ->
  items (deleteItem id s) = l /\
  requests (deleteItem id s) = requests s ++ [DeleteItem id] /\
  selectedItem (deleteItem id s) = None.
Proof.
  intros Hid Hfresh Hitems. unfold deleteItem. rewrite Hitems.
  assert (Hnone : list_find (fun i => item_id i = id) l = None).
  { apply list_find_None, Forall_forall. intros i Hi E. apply Hfresh.
    apply list_elem_of_fmap. exists i. split; [now symmetry | exact Hi]. }
  rewrite (list_find_app_r _ l [item] Hnone). cbn [list_find].
  rewrite decide_True by exact Hid. cbn.
  replace (delete (length l) (l ++ [item])) with (l ++ []) by
    (symmetry; apply delete_middle).
  rewrite app_nil_r. repeat split.
Qed.

(** X21: An item that was just created with an id no other item carries is
    removed again by deleting that id: after saving a new non-blank text, or
    after an image has been added, the list holds the former items followed
    by the new one and a POST of the new item (with the board id) was
    issued; deleting the id then gives back the list of items from before
    the creation and issues a DELETE of the id. *)
Theorem created_item_deleted (newId : string) (s : State) :
  newId ∉ map item_id (items s) ->
  (trim (textInput s) <> EmptyString -> truthyId (editingItemId s) = None ->
     let s1 := saveTextItem newId s in
     (exists item,
        items s1 = items s ++ [item] /\ item_id item = newId /\
        item_content item = Some (trim (textInput s)) /\
        requests s1 = requests s ++ [PostItem (set_board_id boardId item)]) /\
     items (deleteItem newId s1) = items s /\
     requests (deleteItem newId s1) = requests s1 ++ [DeleteItem newId]) /\
  (forall dataUrl x y w h,
     let s1 := addImageItem newId dataUrl x y w h s in
     (exists item,
        items s1 = items s ++ [item] /\ item_id item = newId /\
        item_content item = Some dataUrl /\
        requests s1 = requests s ++ [PostItem (set_board_id boardId item)]) /\
     items (deleteItem newId s1) = items s /\
     requests (deleteItem newId s1) = requests s1 ++ [DeleteItem newId]).
Proof.
  intros Hfresh. split.
  - intros Htext Hedit s1.
    assert (E : exists item,
               items s1 = items s ++ [item] /\ item_id item = newId /\
               item_content item = Some (trim (textInput s)) /\
               requests s1 = requests s ++ [PostItem (set_board_id boardId item)]).
    { subst s1. unfold saveTextItem.
      rewrite bool_decide_eq_false_2 by exact Htext. rewrite Hedit.
      eexists. repeat split. }
    split; [exact E |].
    destruct E as (item & Hitems & Hid & _ & _).
    destruct (deleteItem_appended newId item s1 (items s) Hid Hfresh Hitems)
      as (H1 & H2 & _).
    split; assumption.
  - intros dataUrl x y w h s1.
    assert (E : exists item,
               items s1 = items s ++ [item] /\ item_id item = newId /\
               item_content item = Some dataUrl /\
               requests s1 = requests s ++ [PostItem (set_board_id boardId item)]).
    { subst s1. unfold addImageItem. eexists. repeat split. }
    split; [exact E |].
    destruct E as (item & Hitems & Hid & _ & _).
    destruct (deleteItem_appended newId item s1 (items s) Hid Hfresh Hitems)
      as (H1 & H2 & _).
    split; assumption.
Qed.

Lemma created_item_deleted_witness :
  items (deleteItem "1700000003000_new"
           (addImageItem "1700000003000_new" "data:image/png;base64,AAAA"
              None None 800 600 sampleState))
  = items sampleState.
Proof.
  destruct (created_item_deleted "1700000003000_new" sampleState) as [_ Himg].
  - intros H. apply list_elem_of_fmap in H as (i & Hi & Hin).
    apply elem_of_cons in Hin as [-> | Hin]; [discriminate Hi |].
    apply elem_of_cons in Hin as [-> | Hin]; [discriminate Hi |].
    inversion Hin.
  - destruct (Himg "data:image/png;base64,AAAA"%string None None 800 600)
      as (_ & H & _).
    exact H.
Defined.

End ItemListProperties.
